(** * redux-storage-effect: the versioned migration engine and hydration

    A shallow embedding of [src/Migration.ts] (the version chain builder,
    the migration runner, [MigrationError] and [describeShape]), of
    [src/DiskSpace.ts] and of the hydrate effect of
    [src/PersistenceEffects.ts], followed by the properties of the
    specification that are settled against them.

    Conventions of the embedding.
    - JavaScript values are the inductive type [value]; an object is the
      list of its own enumerable string-keyed properties in enumeration
      order (the order of [Object.entries]).
    - A [number] is an integer-valued double or [NaN]: these are the
      values a stored version can take ([parseInt] yields one or the other).
    - A string is a sequence of code units below 256.
    - Code that may throw returns a [completion]; calls of the functions
      the application supplies (validators, upgrades) are recorded in a
      [trace], threaded through the monad [M]. *)

From stdpp Require Import base gmap list strings pretty.
From Equations Require Import Equations.
From Stdlib Require Import ZArith Lia DecimalString.

Set Warnings "-register-all".

Open Scope Z_scope.

(** ** JavaScript values *)

Inductive number : Type :=
| Num (z : Z)
| NaN.

Inductive value : Type :=
| VUndefined
| VNull
| VBoolean (b : bool)
| VNumber (n : number)
| VBigInt (z : Z)
| VString (s : string)
| VSymbol (id : nat)
| VFunction (id : nat)
| VArray (elements : list value)
| VObject (properties : list (string * value)).

(** [export const ResetSentinel = Symbol()]: the one symbol this module
    creates. *)
Definition ResetSentinel : value := VSymbol 0.

(** What can be thrown: any value, a native error ([Error], [TypeError])
    with its message, or the [MigrationError] of this module. *)
Inductive description : Type :=
| TypeDescription (tag : string)
| ShapeDescription (entries : list (string * description)).

Inductive exn : Type :=
| Thrown (v : value)
| NativeError (name message : string)
| MigrationError (message : string) (cause : exn) (persistedShape : description).

Inductive completion (A : Type) : Type :=
| Normal (a : A)
| Throw (e : exn).
Arguments Normal {A} a.
Arguments Throw {A} e.

Definition bindC {A B} (c : completion A) (k : A -> completion B) : completion B :=
  match c with
  | Normal a => k a
  | Throw e => Throw e
  end.

(** *** Numbers *)

Module Number.

(** [a > b], [a <= b], [a === b]: every comparison with [NaN] is false. *)
Definition gt (a b : number) : bool :=
  match a, b with
  | Num x, Num y => y <? x
  | _, _ => false
  end.

Definition le (a b : number) : bool :=
  match a, b with
  | Num x, Num y => x <=? y
  | _, _ => false
  end.

Definition strict_eq (a b : number) : bool :=
  match a, b with
  | Num x, Num y => x =? y
  | _, _ => false
  end.

(** [a - 1] and [a++]. *)
Definition pred (a : number) : number :=
  match a with
  | Num x => Num (x - 1)
  | NaN => NaN
  end.

Definition succ (a : number) : number :=
  match a with
  | Num x => Num (x + 1)
  | NaN => NaN
  end.

(** Number-to-string conversion, as template literals and [+] on a
    string apply it. Integers below 10^21 in magnitude print in decimal. *)
Definition toString (a : number) : string :=
  match a with
  | Num x => pretty x
  | NaN => "NaN"
  end.

End Number.

(** [array[index]] for a number index: [undefined] ([None]) unless the
    index is an integer within bounds. *)
Definition array_get {A} (array : list A) (index : number) : option A :=
  match index with
  | Num i => if 0 <=? i then array !! Z.to_nat i else None
  | NaN => None
  end.

(** *** [typeof] and truthiness *)

Definition typeof (thing : value) : string :=
  match thing with
  | VUndefined => "undefined"
  | VNull => "object"
  | VBoolean _ => "boolean"
  | VNumber _ => "number"
  | VBigInt _ => "bigint"
  | VString _ => "string"
  | VSymbol _ => "symbol"
  | VFunction _ => "function"
  | VArray _ => "object"
  | VObject _ => "object"
  end.

Definition ToBoolean (thing : value) : bool :=
  match thing with
  | VUndefined | VNull => false
  | VBoolean b => b
  | VNumber (Num z) => negb (z =? 0)
  | VNumber NaN => false
  | VBigInt z => negb (z =? 0)
  | VString s => negb (String.eqb s EmptyString)
  | VSymbol _ | VFunction _ | VArray _ | VObject _ => true
  end.

(** *** Objects as property lists *)

Fixpoint set_property {A} (key : string) (a : A) (props : list (string * A))
  : list (string * A) :=
  match props with
  | [] => [(key, a)]
  | (k, b) :: rest =>
      if String.eqb k key then (k, a) :: rest
      else (k, b) :: set_property key a rest
  end.

(** [Object.fromEntries]: the entries are defined one after the other on a
    fresh object, a repeated key overwriting in place. *)
Definition Object_fromEntries {A} (entries : list (string * A)) : list (string * A) :=
  fold_left (fun obj '(key, a) => set_property key a obj) entries [].

Definition has_property {A} (key : string) (props : list (string * A)) : bool :=
  existsb (fun '(k, _) => String.eqb k key) props.

Fixpoint get_property {A} (key : string) (props : list (string * A)) : option A :=
  match props with
  | [] => None
  | (k, a) :: rest => if String.eqb k key then Some a else get_property key rest
  end.

(** ** The shape descriptor *)

Definition TypeError_to_primitive : exn :=
  NativeError "TypeError" "Cannot convert object to primitive value".

(** The string a template literal substitutes for a descriptor. A
    [TypeDescription] is a string already. A [ShapeDescription] is an
    ordinary object whose own properties hold strings and objects only:
    its conversion calls the inherited [Object.prototype.toString], which
    answers "[object Object]", unless an own property named [toString]
    shadows it with something that cannot be called; then [valueOf] (own and
    not callable, or inherited and returning the object itself) gives no
    primitive either, and the conversion throws. *)
Definition description_ToString (d : description) : completion string :=
  match d with
  | TypeDescription tag => Normal tag
  | ShapeDescription entries =>
      if has_property "toString" entries then Throw TypeError_to_primitive
      else Normal "[object Object]"
  end.

Definition first_element (elements : list value) : value :=
  match elements with
  | [] => VUndefined
  | element :: _ => element
  end.

Definition array_template (d : description) : completion description :=
  bindC (description_ToString d)
        (fun s => Normal (TypeDescription ("Array<" +:+ s +:+ ">"))).

Fixpoint describeShape (thing : value) : completion description :=
  if negb (ToBoolean thing) || negb (String.eqb (typeof thing) "object")
  then Normal (TypeDescription (typeof thing))
  else
    match thing with
    | VArray elements =>
        match elements with
        | [] => array_template (TypeDescription (typeof VUndefined))
        | element :: _ => bindC (describeShape element) array_template
        end
    | VObject properties =>
        let fix entries (props : list (string * value))
          : completion (list (string * description)) :=
          match props with
          | [] => Normal []
          | (key, v) :: rest =>
              bindC (describeShape v) (fun d =>
              bindC (entries rest) (fun ds => Normal ((key, d) :: ds)))
          end in
        bindC (entries properties)
              (fun es => Normal (ShapeDescription (Object_fromEntries es)))
    | _ => Normal (TypeDescription (typeof thing))
    end.

(** ** [JSON.stringify] of a descriptor

    A descriptor holds strings and objects of descriptors only, so the
    serialization is a quoted string or a brace-enclosed, comma-separated
    list of quoted keys and serialized members. *)

Definition hex_digit (n : nat) : string :=
  String.substring n 1 "0123456789abcdef".

Definition backslash : Ascii.ascii := Ascii.ascii_of_nat 92.

(** QuoteJSONString, one code unit at a time. *)
Definition json_escape (c : Ascii.ascii) : string :=
  let n := Ascii.nat_of_ascii c in
  if Nat.eqb n 8 then "\b"
  else if Nat.eqb n 9 then "\t"
  else if Nat.eqb n 10 then "\n"
  else if Nat.eqb n 12 then "\f"
  else if Nat.eqb n 13 then "\r"
  else if Nat.eqb n 34 then String backslash (String c EmptyString)
  else if Nat.eqb n 92 then String backslash (String c EmptyString)
  else if Nat.ltb n 32 then "\u00" +:+ hex_digit (n / 16) +:+ hex_digit (n mod 16)
  else String c EmptyString.

Fixpoint json_escape_string (s : string) : string :=
  match s with
  | EmptyString => EmptyString
  | String c rest => json_escape c +:+ json_escape_string rest
  end.

Definition double_quote : string := String (Ascii.ascii_of_nat 34) EmptyString.

Definition json_quote (s : string) : string :=
  double_quote +:+ json_escape_string s +:+ double_quote.

Fixpoint join (separator : string) (parts : list string) : string :=
  match parts with
  | [] => EmptyString
  | [part] => part
  | part :: rest => part +:+ separator +:+ join separator rest
  end.

Fixpoint JSON_stringify (shape : description) : string :=
  match shape with
  | TypeDescription tag => json_quote tag
  | ShapeDescription entries =>
      "{" +:+ join "," (map (fun '(key, d) => json_quote key +:+ ":" +:+ JSON_stringify d)
                            entries) +:+ "}"
  end.

(** [s.slice(0, n)] and [s.includes(needle)]. *)
Definition slice_from_start (n : nat) (s : string) : string := String.substring 0 n s.

Definition includes (needle s : string) : bool :=
  match String.index 0 needle s with
  | Some _ => true
  | None => false
  end.

(** ** [MigrationError] *)

Record meta : Type := {
  fromVersion : number;
  toVersion : number;
  persistedData : value
}.

(** The constructor of [MigrationError]: the descriptor of the data is
    computed first; only then is the error object built. *)
Definition new_MigrationError (cause : exn) (m : meta) : completion exn :=
  bindC (describeShape (persistedData m)) (fun shape =>
    let serializedShape := JSON_stringify shape in
    let message :=
      "Migration from " +:+ Number.toString (fromVersion m) +:+ " to "
        +:+ Number.toString (toVersion m) +:+ " failed. Persisted "
        +:+ slice_from_start 60 serializedShape in
    Normal (MigrationError message cause shape)).

(** [throw new MigrationError(cause, m)]. *)
Definition throw_new_MigrationError {A} (cause : exn) (m : meta) : completion A :=
  bindC (new_MigrationError cause m) Throw.

(** ** Calls of application code

    A validator or an upgrade is a function of the application; it returns
    a value or throws. Each call is recorded, in order, with its argument. *)

Record call : Type := { callee : string; argument : value }.

Definition trace : Type := list call.

Definition M (A : Type) : Type := trace -> trace * completion A.

Definition ret {A} (a : A) : M A := fun t => (t, Normal a).

Definition throw {A} (e : exn) : M A := fun t => (t, Throw e).

Definition bind {A B} (c : M A) (k : A -> M B) : M B :=
  fun t =>
    match c t with
    | (t', Normal a) => k a t'
    | (t', Throw e) => (t', Throw e)
    end.

Declare Scope js_scope.
Delimit Scope js_scope with js.
Notation "x <- c ;; k" := (bind c (fun x => k))
  (at level 100, c at next level, right associativity) : js_scope.

Record user_fn : Type := {
  fn_name : string;
  fn_body : value -> completion value
}.

Definition invoke (f : user_fn) (x : value) : M value :=
  fun t => (t ++ [{| callee := fn_name f; argument := x |}], fn_body f x).

Definition call_of (f : user_fn) (x : value) : call :=
  {| callee := fn_name f; argument := x |}.

(** [type MigrationFn = (persisted: Real) => Real | typeof ResetSentinel] *)
Abbreviation MigrationFn := (value -> M value) (only parsing).

(** Calling [undefined]. *)
Definition TypeError_not_a_function : exn :=
  NativeError "TypeError" "this.migrations[(version - 1)] is not a function".

(** ** [class Migrations] *)

(** The parameters [state] and [version] of [run]: the loop assigns to
    both, and the [catch] clause reads them as they are when the error
    arrives. *)
Record locals : Type := { var_state : value; var_version : number }.

Module Migrations.

(** [this.migrations.unshift(migrationFn)] *)
Definition add (migrationFn : MigrationFn) (migrations : list MigrationFn)
  : list MigrationFn :=
  migrationFn :: migrations.

(** [get currentVersion() { return this.migrations.length }] *)
Definition currentVersion (migrations : list MigrationFn) : number :=
  Num (Z.of_nat (length migrations)).

(** [this.migrations[version - 1](state)] *)
Definition call_step (migrations : list MigrationFn) (vars : locals) : M value :=
  match array_get migrations (Number.pred (var_version vars)) with
  | Some migrationFn => migrationFn (var_state vars)
  | None => throw TypeError_not_a_function
  end.

(** Iterations the loop has left, at most. *)
Definition remaining (migrations : list MigrationFn) (vars : locals) : nat :=
  match var_version vars with
  | Num z => Z.to_nat (Z.of_nat (length migrations) + 1 - z)
  | NaN => 0%nat
  end.

(** [for (; version <= this.currentVersion; version++)
       state = this.migrations[version - 1](state);]
    The result carries the variables as the loop leaves them, on a
    normal exit or on a throw. *)
Equations? for_loop (migrations : list MigrationFn) (vars : locals) (t : trace)
  : trace * (locals * completion unit) by wf (remaining migrations vars) lt :=
for_loop migrations vars t
  with decide (Number.le (var_version vars) (currentVersion migrations) = true) := {
  | left Hle with call_step migrations vars t := {
      | (t', Normal s) =>
          for_loop migrations
                   {| var_state := s; var_version := Number.succ (var_version vars) |} t';
      | (t', Throw e) => (t', (vars, Throw e)) };
  | right _ => (t, (vars, Normal tt)) }.
Proof.
  unfold remaining. destruct vars as [s0 [z|]]; simpl in *; [|done].
  apply Z.leb_le in Hle. lia.
Qed.

(** The body of the [try]. *)
Definition try_block (migrations : list MigrationFn) (vars : locals) (t : trace)
  : trace * (locals * completion value) :=
  if Number.gt (var_version vars) (currentVersion migrations)
  then (t, (vars, Normal ResetSentinel))
  else
    match for_loop migrations vars t with
    | (t', (vars', Normal _)) => (t', (vars', Normal (var_state vars')))
    | (t', (vars', Throw e)) => (t', (vars', Throw e))
    end.

Definition run (migrations : list MigrationFn) (state : value) (version : number)
  : M value :=
  fun t =>
    match try_block migrations {| var_state := state; var_version := version |} t with
    | (t', (_, Normal result)) => (t', Normal result)
    | (t', (vars, Throw error)) =>
        (t', throw_new_MigrationError error
               {| persistedData := var_state vars;
                  fromVersion := var_version vars;
                  toVersion := currentVersion migrations |})
    end.

End Migrations.

(** ** The builder

    [buildMigration] creates one [Migrations] object; every builder object
    handed out refers to that same object, so a definition is the sequence
    of the calls it makes, each acting on the one shared list. *)

Module CurrentVersionBuildStep.

Definition currentVersion (validate : user_fn) (migrations : list MigrationFn)
  : list MigrationFn :=
  Migrations.add (invoke validate) migrations.

End CurrentVersionBuildStep.

Module OlderVersionBuildStep.

(** [this.migrations.add((state) => migrate(validate(state)))] *)
Definition olderVersion (validate migrate : user_fn) (migrations : list MigrationFn)
  : list MigrationFn :=
  Migrations.add (fun state => (x <- invoke validate state ;; invoke migrate x)%js)
                 migrations.

End OlderVersionBuildStep.

Inductive builder_call : Type :=
| call_currentVersion (validate : user_fn)
| call_olderVersion (validate migrate : user_fn).

Definition perform (c : builder_call) (migrations : list MigrationFn) : list MigrationFn :=
  match c with
  | call_currentVersion validate =>
      CurrentVersionBuildStep.currentVersion validate migrations
  | call_olderVersion validate migrate =>
      OlderVersionBuildStep.olderVersion validate migrate migrations
  end.

Definition perform_all (calls : list builder_call) (migrations : list MigrationFn)
  : list MigrationFn :=
  fold_left (fun ms c => perform c ms) calls migrations.

(** [Pick<BuildResult, "migrate" | "version">] *)
Record VersioningConfig : Type := {
  version : number;
  migrate : value -> number -> M value
}.

Definition buildMigration (migrationsDefinition : list builder_call) : VersioningConfig :=
  let migrations := perform_all migrationsDefinition [] in
  {| version := Migrations.currentVersion migrations;
     migrate := Migrations.run migrations |}.

(** A chain as the specification describes it: [currentVersion] once,
    then [olderVersion] for each older schema, newest first. *)
Definition chain (validate : user_fn) (older : list (user_fn * user_fn))
  : list builder_call :=
  call_currentVersion validate
    :: map (fun '(validate, migrate) => call_olderVersion validate migrate) older.

(** ** The chains of the test suite

    [mustBe(codec)] for the io-ts codecs [type({foo: string})],
    [type({bar: number})] and [type({baz: string})]: the value must be a
    record whose listed properties pass, and is returned as it is.
    [Number] and [String] are the language's conversions, taken as
    parameters. *)

Definition is_string (v : value) : bool :=
  match v with VString _ => true | _ => false end.

Definition is_number (v : value) : bool :=
  match v with VNumber _ => true | _ => false end.

Definition property_or_undefined (key : string) (props : list (string * value)) : value :=
  default VUndefined (get_property key props).

Definition validation_fail : exn := NativeError "Error" "[test] validation fail".

Definition mustBe (name : string) (codec : list (string * (value -> bool))) : user_fn :=
  {| fn_name := name;
     fn_body := fun thing =>
       match thing with
       | VObject props =>
           if forallb (fun '(key, check) => check (property_or_undefined key props)) codec
           then Normal thing
           else Throw validation_fail
       | _ => Throw validation_fail
       end |}.

(** [thing.key], for the keys read here. *)
Definition member (key : string) (thing : value) : completion value :=
  match thing with
  | VObject props => Normal (property_or_undefined key props)
  | VUndefined | VNull =>
      Throw (NativeError "TypeError" "Cannot read properties of undefined")
  | _ => Normal VUndefined
  end.

Section test_chains.

Variable js_Number : value -> number.
Variable js_String : value -> string.

Definition v1 : user_fn := mustBe "mustBe(v1)" [("foo", is_string)].
Definition v2 : user_fn := mustBe "mustBe(v2)" [("bar", is_number)].
Definition v3 : user_fn := mustBe "mustBe(v3)" [("baz", is_string)].

(** [v0 => ({ bar: Number(v0.foo) })] *)
Definition v1_to_v2 : user_fn :=
  {| fn_name := "v1->v2";
     fn_body := fun v0 =>
       bindC (member "foo" v0) (fun foo =>
         Normal (VObject [("bar", VNumber (js_Number foo))])) |}.

(** [v1 => ({ baz: String(v1.bar) })] *)
Definition v2_to_v3 : user_fn :=
  {| fn_name := "v2->v3";
     fn_body := fun v1 =>
       bindC (member "bar" v1) (fun bar =>
         Normal (VObject [("baz", VString (js_String bar))])) |}.

Definition setupV1 : VersioningConfig := buildMigration (chain v1 []).

Definition setupV2 : VersioningConfig := buildMigration (chain v2 [(v1, v1_to_v2)]).

Definition setupV3 : VersioningConfig :=
  buildMigration (chain v3 [(v2, v2_to_v3); (v1, v1_to_v2)]).

End test_chains.

(** Conversions that agree with [Number] on numbers and on strings of
    decimal digits, and with [String] on numbers and strings; what they
    answer elsewhere plays no part below. *)
Definition decimal_Number (v : value) : number :=
  match v with
  | VNumber n => n
  | VString s =>
      match DecimalString.NilEmpty.uint_of_string s with
      | Some digits => Num (Z.of_uint digits)
      | None => NaN
      end
  | _ => NaN
  end.

Definition decimal_String (v : value) : string :=
  match v with
  | VNumber n => Number.toString n
  | VString s => s
  | _ => typeof v
  end.

Definition dataV1 : value := VObject [("foo", VString "123")].
Definition dataV2 : value := VObject [("bar", VNumber (Num 123))].

(** ** The specification's reading of the runner

    The steps a chain stores, oldest first: one "validate then upgrade" per
    older version, then the validator of the current version alone; and
    their application one after the other. *)

Definition validate_then_upgrade (validate migrate : user_fn) : MigrationFn :=
  fun state => (x <- invoke validate state ;; invoke migrate x)%js.

Definition stored_steps (validate : user_fn) (older : list (user_fn * user_fn))
  : list MigrationFn :=
  rev (map (fun '(v, m) => validate_then_upgrade v m) older) ++ [invoke validate].

Fixpoint apply_steps (steps : list MigrationFn) (data : value) : M value :=
  match steps with
  | [] => ret data
  | step :: rest => (x <- step data ;; apply_steps rest x)%js
  end.

(** The same replay, keeping the loop variables: what [state] and
    [version] hold when the steps are through or when one throws. *)
Fixpoint replay (steps : list MigrationFn) (vars : locals) (t : trace)
  : trace * (locals * completion unit) :=
  match steps with
  | [] => (t, (vars, Normal tt))
  | step :: rest =>
      match step (var_state vars) t with
      | (t', Normal s) =>
          replay rest {| var_state := s; var_version := Number.succ (var_version vars) |} t'
      | (t', Throw e) => (t', (vars, Throw e))
      end
  end.

(** ** Disk space and the hydrate effect *)

Module PersistenceEffects.

Record SyncUpdate : Type := {
  owner : option string;
  state : option value;
  skipSync : bool
}.

(** The pluggable [json] of the configuration. *)
Record json_api : Type := {
  parse : string -> completion value;
  stringify : value -> completion string
}.

(** What a persisted record holds once read: [{ data, version }]. *)
Record persisted : Type := { data : value; stored_version : number }.

(** What the change detector keeps: a [WeakRef] to an object, or a plain
    holder of any other value. *)
Inductive ref : Type :=
| weak_ref (target : value)
| plain_ref (data : value).

Section effects.

(** The store: its state, its actions and how an action changes the
    state. *)
Context {TParent action : Type}.
Variable reducer : TParent -> action -> TParent.

(** The language's [parseInt]. *)
Variable parseInt : string -> number.

(** Everything the effect can reach: the web storage, the calls made to
    validators and upgrades, the actions dispatched and the state of
    the store. *)
Record world : Type := {
  storage : gmap string string;
  calls : trace;
  dispatched : list action;
  store_state : TParent
}.

Definition H (A : Type) : Type := world -> world * completion A.

Definition retH {A} (a : A) : H A := fun w => (w, Normal a).

Definition bindH {A B} (c : H A) (k : A -> H B) : H B :=
  fun w =>
    match c w with
    | (w', Normal a) => k a w'
    | (w', Throw e) => (w', Throw e)
    end.

Definition liftC {A} (c : completion A) : H A := fun w => (w, c).

(** Running application code that records its calls. *)
Definition liftM {A} (c : M A) : H A :=
  fun w =>
    let '(t, r) := c (calls w) in
    ({| storage := storage w; calls := t;
        dispatched := dispatched w; store_state := store_state w |}, r).

Inductive actionOrTask : Type :=
| an_action (a : action)
| a_task (task : (action -> H unit) -> H unit).

Record Config : Type := {
  key : string;
  version : number;
  migrate : value -> number -> M value;
  hydrate : value -> completion actionOrTask;
  select : TParent -> completion SyncUpdate;
  json : json_api
}.

Variable config : Config.

(** *** [createDiskSpace(config)] *)

Definition NAMESPACE : string := "aRzf3d7co0u-DISK".
Definition namespacedKey : string := NAMESPACE +:+ ":" +:+ key config +:+ ":".
Definition separator : string := "|".

Definition getOwnedKey (owner : string) : string := namespacedKey +:+ owner.

(** [s.indexOf(separator)] and [s.slice(start, end)]. *)
Definition indexOf (needle s : string) : Z :=
  match String.index 0 needle s with
  | Some i => Z.of_nat i
  | None => -1
  end.

Definition slice (s : string) (start : Z) (finish : option Z) : string :=
  let len := Z.of_nat (String.length s) in
  let clamp x := if x <? 0 then Z.max (len + x) 0 else Z.min x len in
  let from := clamp start in
  let to := match finish with Some e => clamp e | None => len end in
  String.substring (Z.to_nat from) (Z.to_nat (to - from)) s.

Definition is_nullish (v : value) : bool :=
  match v with VUndefined | VNull => true | _ => false end.

Definition disk_get (owner : string) : H (option persisted) :=
  fun w =>
    match storage w !! getOwnedKey owner with
    | None => (w, Normal None)
    | Some storedString =>
        if String.eqb storedString EmptyString then (w, Normal None)
        else
          let separatorIdx := indexOf separator storedString in
          let version := parseInt (slice storedString 0 (Some separatorIdx)) in
          match parse (json config) (slice storedString (separatorIdx + 1) None) with
          | Throw e => (w, Throw e)
          | Normal data =>
              if is_nullish data then (w, Normal None)
              else (w, Normal (Some {| data := data; stored_version := version |}))
          end
    end.

Definition setItem (k item : string) : H unit :=
  fun w =>
    ({| storage := <[k := item]> (storage w); calls := calls w;
        dispatched := dispatched w; store_state := store_state w |}, Normal tt).

Definition removeItem (k : string) : H unit :=
  fun w =>
    ({| storage := delete k (storage w); calls := calls w;
        dispatched := dispatched w; store_state := store_state w |}, Normal tt).

Definition disk_set (owner : string) (state : value) : H unit :=
  bindH (liftC (stringify (json config) state)) (fun serialized =>
    setItem (getOwnedKey owner)
            (Number.toString (version config) +:+ separator +:+ serialized)).

Definition disk_clear (owner : string) : H unit := removeItem (getOwnedKey owner).

(** *** [createHydrateEffect(config, disk)] *)

Definition is_ResetSentinel (v : value) : bool :=
  match v with
  | VSymbol id => Nat.eqb id 0
  | _ => false
  end.

Definition ensureVersionRelevance (p : persisted) (owner : string) : H value :=
  if Number.strict_eq (stored_version p) (version config)
  then retH (data p)
  else
    bindH (liftM (migrate config (data p) (stored_version p))) (fun migratedData =>
      if is_ResetSentinel migratedData
      then bindH (disk_clear owner) (fun _ => retH VUndefined)
      else bindH (disk_set owner migratedData) (fun _ => retH migratedData)).

(** [api.dispatch]: the action reaches the reducer. *)
Definition dispatch (a : action) : H unit :=
  fun w =>
    ({| storage := storage w; calls := calls w;
        dispatched := dispatched w ++ [a];
        store_state := reducer (store_state w) a |}, Normal tt).

Definition getState : H TParent := fun w => (w, Normal (store_state w)).

(** From [config.hydrate(validData)] on. *)
Definition hydrate_with (validData : value) : H unit :=
  bindH (liftC (hydrate config validData)) (fun actionOrTask =>
    match actionOrTask with
    | a_task task => task dispatch
    | an_action a => dispatch a
    end).

Definition theHydrateEffect : H unit :=
  bindH getState (fun parent =>
  bindH (liftC (select config parent)) (fun update =>
    match owner update with
    | None => retH tt
    | Some owner =>
        bindH (disk_get owner) (fun persistedData =>
          match persistedData with
          | None => retH tt
          | Some p =>
              bindH (ensureVersionRelevance p owner) (fun validData =>
                if negb (ToBoolean validData) then retH tt
                else hydrate_with validData)
          end)
    end)).

(** *** [clearAll] and the purge effect *)



(** [s.replace(pattern, replacement)] for a string pattern and a
    replacement without [$]: the first occurrence is replaced. *)
Definition replace (pattern replacement s : string) : string :=
  match String.index 0 pattern s with
  | Some i =>
      String.substring 0 i s +:+ replacement
        +:+ String.substring (i + String.length pattern)
                             (String.length s - (i + String.length pattern)) s
  | None => s
  end.





(** *** [createUpdateEffect(config, disk)] *)

(** The [compare] of the configuration. *)
Variable compare : value -> value -> bool.

(** [createWeakRef]: an object is held weakly, anything else as it is. *)
Definition createWeakRef (data : value) : ref :=
  if ToBoolean data && String.eqb (typeof data) "object"
  then weak_ref data
  else plain_ref data.

(** [current.deref()]; [collected] tells whether the object a weak
    reference held has been reclaimed by now. *)
Definition deref (collected : bool) (r : ref) : value :=
  match r with
  | weak_ref target => if collected then VUndefined else target
  | plain_ref data => data
  end.

(** [isNew] of [createChangeDetector], with the reference it keeps. *)
Definition isNew (collected : bool) (v : value) (current : ref) : bool * ref :=
  let previous := deref collected current in
  if negb (ToBoolean previous) || negb (compare previous v)
  then (true, createWeakRef v)
  else (false, current).

(** The detector as [createChangeDetector] creates it. *)
Definition initial_ref : ref := createWeakRef VUndefined.

(** The owner of an update that is to be synchronized. [SyncOnUpdate]
    requires one; a missing one would read as the text of [undefined]. *)
Definition owner_text (o : option string) : string :=
  match o with
  | Some text => text
  | None => "undefined"
  end.

(** The effect, given the detector's reference and giving it back. *)
Definition theUpdateEffect (collected : bool) (current : ref) (w : world)
  : ref * (world * completion unit) :=
  match select config (store_state w) with
  | Throw e => (current, (w, Throw e))
  | Normal update =>
      if skipSync update then (current, (w, Normal tt))
      else
        let owner := owner_text (owner update) in
        let clear := (current, disk_clear owner w) in
        match state update with
        | None => clear
        | Some st =>
            if negb (ToBoolean st) then clear
            else
              match isNew collected st current with
              | (true, current') => (current', disk_set owner st w)
              | (false, current') => (current', (w, Normal tt))
              end
        end
  end.

End effects.

End PersistenceEffects.

(** ** Values and chains the properties refer to *)

Definition is_primitive (thing : value) : bool :=
  match thing with
  | VArray _ | VObject _ => false
  | _ => true
  end.

(** The value whose descriptor cannot be interpolated: an array whose
    first element is a record with a property named [toString]. *)
Definition shadowing_toString : value :=
  VArray [VObject [("toString", VNumber (Num 1))]].

Definition secret_record : value :=
  VObject [("secret", VString "password123"); ("count", VNumber (Num 3))].

Fixpoint description_strings (d : description) : list string :=
  match d with
  | TypeDescription tag => [tag]
  | ShapeDescription entries =>
      flat_map (fun '(key, member) => key :: description_strings member) entries
  end.

(** A chain whose second step cannot accept what the first produces. *)
Definition mismatched_chain : list MigrationFn :=
  stored_steps v3 [(v3, v2_to_v3 decimal_String); (v1, v1_to_v2 decimal_Number)].

(** Stand-ins for [parseInt] and [JSON] that agree with them on strings
    of decimal digits and on numbers. *)
Definition digits_parseInt (s : string) : number :=
  match DecimalString.NilEmpty.uint_of_string s with
  | Some digits => Num (Z.of_uint digits)
  | None => NaN
  end.

Definition digits_json : PersistenceEffects.json_api :=
  {| PersistenceEffects.parse := fun s =>
       match DecimalString.NilEmpty.uint_of_string s with
       | Some digits => Normal (VNumber (Num (Z.of_uint digits)))
       | None => Throw (NativeError "SyntaxError" "Unexpected token")
       end;
     PersistenceEffects.stringify := fun v =>
       match v with
       | VNumber n => Normal (Number.toString n)
       | _ => Normal "null"
       end |}.

(** A store whose state is a value and whose actions replace it, with the
    one-version chain of the tests as its versioning. *)
Definition test_config : @PersistenceEffects.Config value value :=
  {| PersistenceEffects.key := "test";
     PersistenceEffects.version := version setupV1;
     PersistenceEffects.migrate := migrate setupV1;
     PersistenceEffects.hydrate := fun validData =>
       Normal (PersistenceEffects.an_action validData);
     PersistenceEffects.select := fun _ =>
       Normal {| PersistenceEffects.owner := Some "static";
                 PersistenceEffects.state := None;
                 PersistenceEffects.skipSync := false |};
     PersistenceEffects.json := digits_json |}.

Definition test_world (storedString : string) : @PersistenceEffects.world value value :=
  {| PersistenceEffects.storage := {[ "aRzf3d7co0u-DISK:test:static" := storedString ]};
     PersistenceEffects.calls := [];
     PersistenceEffects.dispatched := [];
     PersistenceEffects.store_state := VString "init" |}.

(** ** Reading a descriptor

    The property names a value holds, at any depth; the texts a type tag
    can be; and the descriptors made of such tags and such names only. *)

Fixpoint keys_of (thing : value) : list string :=
  match thing with
  | VArray elements => flat_map keys_of elements
  | VObject properties =>
      flat_map (fun kv => fst kv :: keys_of (snd kv)) properties
  | _ => []
  end.

Definition JsType : list string :=
  ["string"; "number"; "bigint"; "boolean"; "symbol"; "undefined"; "object"; "function"].

Inductive type_tag : string -> Prop :=
| tag_JsType tag : In tag JsType -> type_tag tag
| tag_Array tag : type_tag tag -> type_tag ("Array<" +:+ tag +:+ ">")
| tag_Array_of_object : type_tag "Array<[object Object]>".

Inductive shape_over (keys : list string) : description -> Prop :=
| over_tag tag : type_tag tag -> shape_over keys (TypeDescription tag)
| over_entries entries :
    Forall (fun kd => In (fst kd) keys /\ shape_over keys (snd kd)) entries ->
    shape_over keys (ShapeDescription entries).

(** No record of the value, at any depth, has a property named
    [toString]. *)
Fixpoint no_toString_key (thing : value) : bool :=
  match thing with
  | VArray elements => forallb no_toString_key elements
  | VObject properties =>
      negb (has_property "toString" properties)
      && forallb (fun kv => no_toString_key (snd kv)) properties
  | _ => true
  end.

(** The entries a record's descriptor is made from. *)
Fixpoint describe_entries (props : list (string * value))
  : completion (list (string * description)) :=
  match props with
  | [] => Normal []
  | (key, v) :: rest =>
      bindC (describeShape v) (fun d =>
      bindC (describe_entries rest) (fun ds => Normal ((key, d) :: ds)))
  end.

(** The step a builder call stores. *)
Definition step_of (c : builder_call) : MigrationFn :=
  match c with
  | call_currentVersion validate => invoke validate
  | call_olderVersion validate migrate => validate_then_upgrade validate migrate
  end.

(** The fixed part of a [MigrationError]'s message. *)
Definition message_header (m : meta) : string :=
  "Migration from " +:+ Number.toString (fromVersion m) +:+ " to "
    +:+ Number.toString (toVersion m) +:+ " failed. Persisted ".

(** A value with a string value at depth, and no property named
    [toString]. *)
Definition nested_record : value :=
  VObject [("user", VObject [("name", VString "Ada"); ("tags", VArray [VString "x"])]);
           ("visits", VArray [])].

(** A record wide enough for its serialized descriptor to pass 60
    characters, and that descriptor. *)
Definition wide_record : value :=
  VObject [("firstName", VString "Ada"); ("lastName", VString "Lovelace");
           ("birthYear", VNumber (Num 1815)); ("languages", VArray [VString "en"])].

Definition wide_shape : description :=
  ShapeDescription [("firstName", TypeDescription "string");
                    ("lastName", TypeDescription "string");
                    ("birthYear", TypeDescription "number");
                    ("languages", TypeDescription "Array<string>")].

(** Whether a character occurs in a string; the separator of a stored
    record as a character. *)
Fixpoint has_char (c : Ascii.ascii) (s : string) : bool :=
  match s with
  | EmptyString => false
  | String x rest => Ascii.eqb x c || has_char c rest
  end.

Definition separator_char : Ascii.ascii := Ascii.ascii_of_nat 124.

(** A chain over numbers: both versions hold a number, and the upgrade
    from version 1 adds one. *)
Definition is_a_number : user_fn :=
  {| fn_name := "isNumber";
     fn_body := fun v => if is_number v then Normal v else Throw validation_fail |}.

Definition add_one : user_fn :=
  {| fn_name := "addOne";
     fn_body := fun v =>
       match v with
       | VNumber n => Normal (VNumber (Number.succ n))
       | _ => Normal (VNumber NaN)
       end |}.

Definition counter_chain : list builder_call := chain is_a_number [(is_a_number, add_one)].

Definition counter_config : @PersistenceEffects.Config value value :=
  {| PersistenceEffects.key := "test";
     PersistenceEffects.version := version (buildMigration counter_chain);
     PersistenceEffects.migrate := migrate (buildMigration counter_chain);
     PersistenceEffects.hydrate := fun validData =>
       Normal (PersistenceEffects.an_action validData);
     PersistenceEffects.select := fun _ =>
       Normal {| PersistenceEffects.owner := Some "static";
                 PersistenceEffects.state := None;
                 PersistenceEffects.skipSync := false |};
     PersistenceEffects.json := digits_json |}.

Definition static_update : PersistenceEffects.SyncUpdate :=
  {| PersistenceEffects.owner := Some "static";
     PersistenceEffects.state := None;
     PersistenceEffects.skipSync := false |}.

Definition empty_world : @PersistenceEffects.world value value :=
  {| PersistenceEffects.storage := ∅;
     PersistenceEffects.calls := [];
     PersistenceEffects.dispatched := [];
     PersistenceEffects.store_state := VString "init" |}.

Definition thrown_by {A} (c : completion A) : exn :=
  match c with
  | Throw e => e
  | Normal _ => Thrown VUndefined
  end.

Definition record_of (d : value) (v : number) : PersistenceEffects.persisted :=
  {| PersistenceEffects.data := d; PersistenceEffects.stored_version := v |}.

(** The world once the store has moved to another state. *)
Definition with_store_state {TParent action : Type} (s : TParent)
  (w : @PersistenceEffects.world TParent action) : @PersistenceEffects.world TParent action :=
  {| PersistenceEffects.storage := PersistenceEffects.storage w;
     PersistenceEffects.calls := PersistenceEffects.calls w;
     PersistenceEffects.dispatched := PersistenceEffects.dispatched w;
     PersistenceEffects.store_state := s |}.

(** A store whose state is the value to persist: nothing is selected for
    [undefined], and the state itself otherwise. *)
Definition mirror_update (skip : bool) (parent : value) : PersistenceEffects.SyncUpdate :=
  {| PersistenceEffects.owner := Some "static";
     PersistenceEffects.state := match parent with VUndefined => None | _ => Some parent end;
     PersistenceEffects.skipSync := skip |}.

Definition sync_config (skip : bool) : @PersistenceEffects.Config value value :=
  {| PersistenceEffects.key := "test";
     PersistenceEffects.version := version setupV1;
     PersistenceEffects.migrate := migrate setupV1;
     PersistenceEffects.hydrate := fun validData =>
       Normal (PersistenceEffects.an_action validData);
     PersistenceEffects.select := fun parent => Normal (mirror_update skip parent);
     PersistenceEffects.json := digits_json |}.

Definition mirror_config : @PersistenceEffects.Config value value := sync_config false.

(** [Object.is] on numbers and strings of the model. *)
Definition same_value (a b : value) : bool :=
  match a, b with
  | VNumber (Num x), VNumber (Num y) => x =? y
  | VNumber NaN, VNumber NaN => true
  | VString x, VString y => String.eqb x y
  | _, _ => false
  end.

(** * Properties *)

(** ** Completions and the monad *)

Lemma throw_new_MigrationError_not_Normal {A} cause m (a : A) :
  throw_new_MigrationError cause m <> Normal a.
Proof.
  unfold throw_new_MigrationError, new_MigrationError.
  destruct (describeShape (persistedData m)); simpl; discriminate.
Qed.

Lemma throw_new_MigrationError_shape {A} cause m shape :
  describeShape (persistedData m) = Normal shape ->
  @throw_new_MigrationError A cause m =
    Throw (MigrationError
             ("Migration from " +:+ Number.toString (fromVersion m) +:+ " to "
                +:+ Number.toString (toVersion m) +:+ " failed. Persisted "
                +:+ slice_from_start 60 (JSON_stringify shape))
             cause shape).
Proof.
  intros Hshape. unfold throw_new_MigrationError, new_MigrationError.
  rewrite Hshape. reflexivity.
Qed.

(** ** The loop *)

Section loop_facts.

Variable migrations : list MigrationFn.

Lemma for_loop_exit vars t :
  Number.le (var_version vars) (Migrations.currentVersion migrations) = false ->
  Migrations.for_loop migrations vars t = (t, (vars, Normal tt)).
Proof.
  intros Hle. simp for_loop.
  destruct (decide _) as [Heq|Hne]; [congruence|]. reflexivity.
Qed.

Lemma for_loop_iterate vars t :
  Number.le (var_version vars) (Migrations.currentVersion migrations) = true ->
  Migrations.for_loop migrations vars t =
    match Migrations.call_step migrations vars t with
    | (t', Normal s) =>
        Migrations.for_loop migrations
          {| var_state := s; var_version := Number.succ (var_version vars) |} t'
    | (t', Throw e) => (t', (vars, Throw e))
    end.
Proof.
  intros Hle. simp for_loop.
  destruct (decide _) as [Heq|Hne]; [|congruence]. simpl.
  destruct (Migrations.call_step migrations vars t) as [t' [s|e]]; reflexivity.
Qed.

Lemma call_step_in_range s z f :
  1 <= z ->
  migrations !! Z.to_nat (z - 1) = Some f ->
  Migrations.call_step migrations {| var_state := s; var_version := Num z |} = f s.
Proof.
  intros Hz Hf. unfold Migrations.call_step, array_get, Number.pred.
  cbn [var_version var_state].
  destruct (Z.leb_spec 0 (z - 1)); [|lia]. rewrite Hf. reflexivity.
Qed.

Lemma call_step_below_one s z :
  z < 1 ->
  Migrations.call_step migrations {| var_state := s; var_version := Num z |}
  = throw TypeError_not_a_function.
Proof.
  intros Hz. unfold Migrations.call_step, array_get, Number.pred.
  cbn [var_version var_state].
  destruct (Z.leb_spec 0 (z - 1)); [lia|]. reflexivity.
Qed.

(** Within range the loop replays the suffix of the list that starts at
    the stored version. *)
Lemma for_loop_replay (n : nat) : forall s z t,
  1 <= z ->
  Z.of_nat (length migrations) + 1 - z = Z.of_nat n ->
  Migrations.for_loop migrations {| var_state := s; var_version := Num z |} t
  = replay (drop (Z.to_nat (z - 1)) migrations)
           {| var_state := s; var_version := Num z |} t.
Proof.
  induction n as [|n IH]; intros s z t Hz Hn.
  - rewrite for_loop_exit.
    + rewrite drop_ge by lia. reflexivity.
    + simpl. apply Z.leb_gt. lia.
  - rewrite for_loop_iterate by (simpl; apply Z.leb_le; lia).
    destruct (lookup_lt_is_Some_2 migrations (Z.to_nat (z - 1))) as [f Hf]; [lia|].
    rewrite (call_step_in_range _ _ _ Hz Hf).
    rewrite (drop_S _ _ _ Hf). simpl.
    replace (S (Z.to_nat (z - 1))) with (Z.to_nat (z + 1 - 1)) by lia.
    destruct (f s t) as [t' [s'|e]]; [|reflexivity].
    apply IH; lia.
Qed.

End loop_facts.

(** ** Replaying steps *)

Lemma replay_normal steps : forall s z t t' r,
  apply_steps steps s t = (t', Normal r) ->
  replay steps {| var_state := s; var_version := Num z |} t
  = (t', ({| var_state := r; var_version := Num (z + Z.of_nat (length steps)) |},
          Normal tt)).
Proof.
  induction steps as [|step rest IH]; intros s z t t' r Happly;
    cbn [replay apply_steps length var_state var_version Number.succ] in *.
  - unfold ret in Happly. injection Happly as <- <-.
    replace (z + Z.of_nat 0) with z by lia. reflexivity.
  - unfold bind in Happly. destruct (step s t) as [t1 [s1|e]]; [|discriminate].
    rewrite (IH _ (z + 1) _ _ _ Happly).
    replace (z + 1 + Z.of_nat (length rest)) with (z + Z.of_nat (S (length rest))) by lia.
    reflexivity.
Qed.

Lemma replay_throw steps : forall s z t t' e,
  apply_steps steps s t = (t', Throw e) ->
  exists vars,
    replay steps {| var_state := s; var_version := Num z |} t = (t', (vars, Throw e)).
Proof.
  induction steps as [|step rest IH]; intros s z t t' e Happly; simpl in *.
  - discriminate.
  - unfold bind in Happly. destruct (step s t) as [t1 [s1|e1]].
    + apply IH. exact Happly.
    + injection Happly as <- <-. eauto.
Qed.

Lemma replay_app xs ys : forall vars t,
  replay (xs ++ ys) vars t =
    match replay xs vars t with
    | (t', (vars', Normal _)) => replay ys vars' t'
    | (t', (vars', Throw e)) => (t', (vars', Throw e))
    end.
Proof.
  induction xs as [|x xs IH]; intros vars t; simpl.
  - reflexivity.
  - destruct (x (var_state vars) t) as [t1 [s1|e1]]; [apply IH|reflexivity].
Qed.

(** ** The runner *)

Lemma run_in_range migrations s z t :
  1 <= z <= Z.of_nat (length migrations) ->
  Migrations.run migrations s (Num z) t =
    match replay (drop (Z.to_nat (z - 1)) migrations)
                 {| var_state := s; var_version := Num z |} t with
    | (t', (vars, Normal _)) => (t', Normal (var_state vars))
    | (t', (vars, Throw error)) =>
        (t', throw_new_MigrationError error
               {| persistedData := var_state vars;
                  fromVersion := var_version vars;
                  toVersion := Migrations.currentVersion migrations |})
    end.
Proof.
  intros Hz. unfold Migrations.run, Migrations.try_block. simpl.
  destruct (Z.ltb_spec (Z.of_nat (length migrations)) z); [lia|].
  rewrite (for_loop_replay migrations
             (Z.to_nat (Z.of_nat (length migrations) + 1 - z))) by lia.
  destruct (replay _ _ t) as [t' [vars [[]|e]]]; reflexivity.
Qed.

Lemma run_below_one migrations s z t :
  migrations <> [] ->
  z < 1 ->
  Migrations.run migrations s (Num z) t =
    (t, throw_new_MigrationError TypeError_not_a_function
          {| persistedData := s;
             fromVersion := Num z;
             toVersion := Migrations.currentVersion migrations |}).
Proof.
  intros Hne Hz. unfold Migrations.run, Migrations.try_block. simpl.
  destruct (Z.ltb_spec (Z.of_nat (length migrations)) z); [lia|].
  rewrite for_loop_iterate by (simpl; apply Z.leb_le; lia).
  rewrite call_step_below_one by exact Hz. reflexivity.
Qed.

(** ** The builder *)

Lemma perform_all_older older : forall migrations,
  perform_all (map (fun '(v, m) => call_olderVersion v m) older) migrations
  = rev (map (fun '(v, m) => validate_then_upgrade v m) older) ++ migrations.
Proof.
  induction older as [|[v m] older IH]; intros migrations; simpl.
  - reflexivity.
  - unfold perform_all in *. simpl. rewrite IH. rewrite <- app_assoc. reflexivity.
Qed.

Lemma perform_all_chain validate older :
  perform_all (chain validate older) [] = stored_steps validate older.
Proof.
  unfold chain, stored_steps. unfold perform_all at 1. simpl.
  apply (perform_all_older older [invoke validate]).
Qed.

Lemma length_stored_steps validate older :
  length (stored_steps validate older) = S (length older).
Proof.
  unfold stored_steps. rewrite length_app, length_rev, length_map. simpl. lia.
Qed.

Lemma migrate_chain validate older :
  migrate (buildMigration (chain validate older))
  = Migrations.run (stored_steps validate older).
Proof. unfold buildMigration. cbn [migrate]. rewrite perform_all_chain. reflexivity. Qed.

Lemma version_chain validate older :
  version (buildMigration (chain validate older))
  = Num (Z.of_nat (S (length older))).
Proof.
  unfold buildMigration. cbn [version]. rewrite perform_all_chain.
  unfold Migrations.currentVersion. rewrite length_stored_steps. reflexivity.
Qed.

(** ** Migration within range *)

(** C1. For a chain built with a current-version validator and [n]
    [olderVersion] steps and a stored version between 1 and the current
    version, [migrate] makes the calls that applying the stored steps in
    order, from the one at the stored version to the last, makes, and it
    returns a value exactly when that application does, the same one. On
    the three-version chain of the tests, [migrate({foo: "123"}, 1)] calls
    the validators and upgrades of versions 1, 2 and 3 in turn and returns
    [{baz: "123"}]. *)
Theorem C1_migrate_applies_stored_steps_in_order
  (js_Number : value -> number) (js_String : value -> string)
  (validate : user_fn) (older : list (user_fn * user_fn))
  (data : value) (persistedVersion : Z) (t : trace) :
  js_Number (VString "123") = Num 123 ->
  js_String (VNumber (Num 123)) = "123" ->
  1 <= persistedVersion <= 1 + Z.of_nat (length older) ->
  let built := buildMigration (chain validate older) in
  let steps := drop (Z.to_nat (persistedVersion - 1)) (stored_steps validate older) in
  fst (migrate built data (Num persistedVersion) t) = fst (apply_steps steps data t)
  /\ (forall result,
        snd (migrate built data (Num persistedVersion) t) = Normal result
        <-> snd (apply_steps steps data t) = Normal result)
  /\ migrate (setupV3 js_Number js_String) dataV1 (Num 1) t
     = (t ++ [call_of v1 dataV1; call_of (v1_to_v2 js_Number) dataV1;
              call_of v2 dataV2; call_of (v2_to_v3 js_String) dataV2;
              call_of v3 (VObject [("baz", VString "123")])],
        Normal (VObject [("baz", VString "123")])).
Proof.
  intros HNumber HString Hrange built steps. subst built.
  rewrite migrate_chain.
  rewrite run_in_range by (rewrite length_stored_steps; lia).
  fold steps.
  split; [|split].
  - destruct (apply_steps steps data t) as [t' [r|e]] eqn:Happly.
    + rewrite (replay_normal _ _ persistedVersion _ _ _ Happly). reflexivity.
    + destruct (replay_throw _ _ persistedVersion _ _ _ Happly) as [vars ->].
      reflexivity.
  - intros result.
    destruct (apply_steps steps data t) as [t' [r|e]] eqn:Happly.
    + rewrite (replay_normal _ _ persistedVersion _ _ _ Happly). reflexivity.
    + destruct (replay_throw _ _ persistedVersion _ _ _ Happly) as [vars ->].
      cbn [snd]. split; [|discriminate].
      intros Hnormal. exfalso.
      exact (throw_new_MigrationError_not_Normal _ _ _ Hnormal).
  - unfold setupV3. rewrite migrate_chain.
    rewrite run_in_range by (rewrite length_stored_steps; simpl; lia).
    unfold stored_steps, validate_then_upgrade, bind, invoke, dataV1, dataV2, call_of,
      v1, v2, v3, v1_to_v2, v2_to_v3, mustBe.
    simpl. unfold property_or_undefined. simpl.
    rewrite HNumber. simpl. rewrite HString.
    rewrite <- !app_assoc. reflexivity.
Qed.

Lemma C1_migrate_applies_stored_steps_in_order_witness :
  let built :=
    buildMigration
      (chain v3 [(v2, v2_to_v3 decimal_String); (v1, v1_to_v2 decimal_Number)]) in
  let steps :=
    drop (Z.to_nat (2 - 1))
         (stored_steps v3 [(v2, v2_to_v3 decimal_String); (v1, v1_to_v2 decimal_Number)]) in
  fst (migrate built dataV2 (Num 2) []) = fst (apply_steps steps dataV2 [])
  /\ (forall result,
        snd (migrate built dataV2 (Num 2) []) = Normal result
        <-> snd (apply_steps steps dataV2 []) = Normal result)
  /\ migrate (setupV3 decimal_Number decimal_String) dataV1 (Num 1) []
     = ([call_of v1 dataV1; call_of (v1_to_v2 decimal_Number) dataV1;
         call_of v2 dataV2; call_of (v2_to_v3 decimal_String) dataV2;
         call_of v3 (VObject [("baz", VString "123")])],
        Normal (VObject [("baz", VString "123")])).
Proof.
  refine (C1_migrate_applies_stored_steps_in_order
            decimal_Number decimal_String v3
            [(v2, v2_to_v3 decimal_String); (v1, v1_to_v2 decimal_Number)]
            dataV2 2 [] _ _ _).
  - reflexivity.
  - reflexivity.
  - simpl. lia.
Defined.

(** ** Downgrade *)

(** C2. Whatever the chain and the data, a stored version greater than
    the current version makes [migrate] return the Reset Sentinel: nothing
    is thrown, and the record of calls is as before, so no validator or
    upgrade has run. *)
Theorem C2_newer_version_returns_ResetSentinel
  (migrationsDefinition : list builder_call) (data : value)
  (persistedVersion : number) (t : trace) :
  Number.gt persistedVersion (version (buildMigration migrationsDefinition)) = true ->
  migrate (buildMigration migrationsDefinition) data persistedVersion t
  = (t, Normal ResetSentinel).
Proof.
  intros Hgt. unfold buildMigration in *. cbn [migrate version] in *.
  unfold Migrations.run, Migrations.try_block. cbn [var_version].
  rewrite Hgt. reflexivity.
Qed.

Lemma C2_newer_version_returns_ResetSentinel_witness :
  migrate (buildMigration (chain v1 [])) (VArray [VNull]) (Num 2) []
  = ([], Normal ResetSentinel).
Proof.
  apply (C2_newer_version_returns_ResetSentinel (chain v1 []) (VArray [VNull]) (Num 2) []).
  reflexivity.
Defined.

(** ** The current version *)

(** C4. [migrate(data, currentVersion)] calls the validator of the current
    version on [data], once, and nothing else; what the validator returns
    is what [migrate] returns, and when the validator throws so does
    [migrate]. So data the validator returns as it is comes back as it
    is, and whatever is returned was returned by the validator. *)
Theorem C4_current_version_is_validated_once
  (validate : user_fn) (older : list (user_fn * user_fn)) (data : value) (t : trace) :
  let built := buildMigration (chain validate older) in
  migrate built data (version built) t
  = (t ++ [call_of validate data],
     match fn_body validate data with
     | Normal result => Normal result
     | Throw e =>
         throw_new_MigrationError e
           {| persistedData := data;
              fromVersion := version built;
              toVersion := version built |}
     end)
  /\ (fn_body validate data = Normal data ->
      snd (migrate built data (version built) t) = Normal data)
  /\ (forall result,
        snd (migrate built data (version built) t) = Normal result ->
        fn_body validate data = Normal result).
Proof.
  intros built.
  assert (Hrun : migrate built data (version built) t
                 = (t ++ [call_of validate data],
                    match fn_body validate data with
                    | Normal result => Normal result
                    | Throw e =>
                        throw_new_MigrationError e
                          {| persistedData := data;
                             fromVersion := version built;
                             toVersion := version built |}
                    end)).
  { subst built. rewrite migrate_chain, version_chain.
    rewrite run_in_range by (rewrite length_stored_steps; lia).
    unfold Migrations.currentVersion. rewrite length_stored_steps.
    replace (Z.to_nat (Z.of_nat (S (length older)) - 1)) with (length older) by lia.
    unfold stored_steps.
    rewrite drop_app_length'
      by (rewrite length_rev, length_map; reflexivity).
    cbn [replay var_state var_version]. unfold invoke at 1. fold (call_of validate data).
    destruct (fn_body validate data) as [result|e]; reflexivity. }
  split; [exact Hrun|]. rewrite Hrun. cbn [snd]. split.
  - intros ->. reflexivity.
  - intros result. destruct (fn_body validate data) as [r|e]; [trivial|].
    intros Hnormal. exfalso.
    exact (throw_new_MigrationError_not_Normal _ _ _ Hnormal).
Qed.

Lemma C4_current_version_is_validated_once_witness :
  snd (migrate (buildMigration (chain v1 [])) dataV1
               (version (buildMigration (chain v1 []))) [])
  = Normal dataV1.
Proof.
  apply (proj1 (proj2 (C4_current_version_is_validated_once v1 [] dataV1 []))).
  reflexivity.
Defined.

(** ** The derived version *)

(** C5. A chain of one [currentVersion] call and [n] [olderVersion] calls
    has version [1 + n]: [currentVersion] alone gives 1, and an
    [olderVersion] call added to any definition raises the version by
    one. *)
Theorem C5_version_counts_declared_steps
  (validate : user_fn) (older : list (user_fn * user_fn)) :
  version (buildMigration (chain validate older)) = Num (1 + Z.of_nat (length older))
  /\ version (buildMigration (chain validate [])) = Num 1
  /\ (forall (migrationsDefinition : list builder_call) (validate' migrate' : user_fn),
        version (buildMigration
                   (migrationsDefinition ++ [call_olderVersion validate' migrate']))
        = Number.succ (version (buildMigration migrationsDefinition))).
Proof.
  split; [|split].
  - rewrite version_chain. f_equal. lia.
  - reflexivity.
  - intros definition validate' migrate'. unfold buildMigration. cbn [version].
    unfold perform_all. rewrite fold_left_app. cbn [fold_left perform].
    unfold OlderVersionBuildStep.olderVersion, Migrations.add, Migrations.currentVersion.
    cbn [length Number.succ]. f_equal. lia.
Qed.

(** ** Errors *)

Lemma run_throw_describable migrations s z t t' vars e shape :
  1 <= z <= Z.of_nat (length migrations) ->
  replay (drop (Z.to_nat (z - 1)) migrations)
         {| var_state := s; var_version := Num z |} t = (t', (vars, Throw e)) ->
  describeShape (var_state vars) = Normal shape ->
  exists message,
    Migrations.run migrations s (Num z) t = (t', Throw (MigrationError message e shape)).
Proof.
  intros Hz Hreplay Hshape. rewrite run_in_range by exact Hz. rewrite Hreplay.
  erewrite throw_new_MigrationError_shape by exact Hshape. eauto.
Qed.

(** C3. On the one-version chain of the tests, the validator rejects an
    array; when the array's first element has a property named [toString]
    the error that leaves [migrate] is the [TypeError] of the descriptor's
    string conversion, raised while the [MigrationError] was being built:
    it is no [MigrationError] and the validator's error is not its cause. *)
Theorem C3_validator_error_leaves_unwrapped :
  fn_body v1 shadowing_toString = Throw validation_fail
  /\ migrate setupV1 shadowing_toString (Num 1) []
     = ([call_of v1 shadowing_toString], Throw TypeError_to_primitive)
  /\ (forall message cause shape,
        TypeError_to_primitive <> MigrationError message cause shape).
Proof.
  split; [reflexivity|]. split; [reflexivity|]. intros; discriminate.
Qed.

(** C9. When the steps from the stored version [v] up to [k - 1] go
    through, leaving the value [s_k], and step [k] throws [e], the
    [MigrationError] is built from the loop's variables as they are then:
    its cause is [e], its [fromVersion] is [k] and the data described is
    [s_k]. So, once [s_k] has a descriptor, the message reads "from k" and
    the error carries the descriptor of [s_k]. *)
Theorem C9_error_built_from_loop_variables
  (migrations : list MigrationFn) (data : value) (v k : Z)
  (t t1 t2 : trace) (s_k : value) (f : MigrationFn) (e : exn) :
  1 <= v <= k ->
  k <= Z.of_nat (length migrations) ->
  apply_steps (take (Z.to_nat (k - v)) (drop (Z.to_nat (v - 1)) migrations)) data t
  = (t1, Normal s_k) ->
  migrations !! Z.to_nat (k - 1) = Some f ->
  f s_k t1 = (t2, Throw e) ->
  Migrations.run migrations data (Num v) t
  = (t2, throw_new_MigrationError e
           {| persistedData := s_k;
              fromVersion := Num k;
              toVersion := Migrations.currentVersion migrations |})
  /\ (forall shape,
        describeShape s_k = Normal shape ->
        Migrations.run migrations data (Num v) t
        = (t2, Throw (MigrationError
                        ("Migration from " +:+ pretty k +:+ " to "
                           +:+ pretty (Z.of_nat (length migrations))
                           +:+ " failed. Persisted "
                           +:+ slice_from_start 60 (JSON_stringify shape))
                        e shape))).
Proof.
  intros Hv Hk Hprefix Hf Hthrow.
  assert (Hrun : Migrations.run migrations data (Num v) t
                 = (t2, throw_new_MigrationError e
                          {| persistedData := s_k;
                             fromVersion := Num k;
                             toVersion := Migrations.currentVersion migrations |})).
  { rewrite run_in_range by lia.
    rewrite <- (take_drop (Z.to_nat (k - v)) (drop (Z.to_nat (v - 1)) migrations)) at 1.
    rewrite replay_app.
    rewrite (replay_normal _ _ v _ _ _ Hprefix).
    rewrite length_take, length_drop.
    replace (Z.of_nat (Z.to_nat (k - v) `min` (length migrations - Z.to_nat (v - 1))))
      with (k - v) by lia.
    rewrite drop_drop.
    replace (Z.to_nat (v - 1) + Z.to_nat (k - v))%nat with (Z.to_nat (k - 1)) by lia.
    rewrite (drop_S _ _ _ Hf). cbn [replay var_state]. rewrite Hthrow.
    replace (v + (k - v)) with k by lia. reflexivity. }
  split; [exact Hrun|].
  intros shape Hshape. rewrite Hrun.
  erewrite throw_new_MigrationError_shape by exact Hshape. reflexivity.
Qed.

Lemma C9_error_built_from_loop_variables_witness :
  Migrations.run mismatched_chain dataV1 (Num 1) []
  = ([call_of v1 dataV1; call_of (v1_to_v2 decimal_Number) dataV1; call_of v3 dataV2],
     throw_new_MigrationError validation_fail
       {| persistedData := dataV2;
          fromVersion := Num 2;
          toVersion := Migrations.currentVersion mismatched_chain |})
  /\ (forall shape,
        describeShape dataV2 = Normal shape ->
        Migrations.run mismatched_chain dataV1 (Num 1) []
        = ([call_of v1 dataV1; call_of (v1_to_v2 decimal_Number) dataV1;
            call_of v3 dataV2],
           Throw (MigrationError
                    ("Migration from " +:+ pretty 2 +:+ " to "
                       +:+ pretty (Z.of_nat (length mismatched_chain))
                       +:+ " failed. Persisted "
                       +:+ slice_from_start 60 (JSON_stringify shape))
                    validation_fail shape))).
Proof.
  refine (C9_error_built_from_loop_variables mismatched_chain dataV1 1 2
            [] [call_of v1 dataV1; call_of (v1_to_v2 decimal_Number) dataV1]
            [call_of v1 dataV1; call_of (v1_to_v2 decimal_Number) dataV1; call_of v3 dataV2]
            dataV2
            (validate_then_upgrade v3 (v2_to_v3 decimal_String))
            validation_fail _ _ _ _ _).
  - lia.
  - simpl. lia.
  - reflexivity.
  - reflexivity.
  - reflexivity.
Defined.

(** C10. On the one-version chain of the tests and version 0, the lookup
    finds no step and the call throws before any validator runs; with
    data whose descriptor cannot be interpolated the error that leaves
    [migrate] is the [TypeError] of that conversion, not a
    [MigrationError]. *)
Theorem C10_version_zero_error_leaves_unwrapped :
  version setupV1 = Num 1
  /\ migrate setupV1 shadowing_toString (Num 0) []
     = ([], Throw TypeError_to_primitive)
  /\ (forall message cause shape,
        TypeError_to_primitive <> MigrationError message cause shape).
Proof.
  split; [reflexivity|]. split; [reflexivity|]. intros; discriminate.
Qed.

(** For data that has a descriptor the error is the wrapped one, whatever
    the chain. *)
Lemma run_below_one_describable migrations s z t shape :
  migrations <> [] ->
  z < 1 ->
  describeShape s = Normal shape ->
  exists message,
    Migrations.run migrations s (Num z) t
    = (t, Throw (MigrationError message TypeError_not_a_function shape)).
Proof.
  intros Hne Hz Hshape. rewrite run_below_one by assumption.
  erewrite throw_new_MigrationError_shape by exact Hshape. eauto.
Qed.

(** ** The shape descriptor *)

Lemma describeShape_primitive thing :
  is_primitive thing = true ->
  describeShape thing = Normal (TypeDescription (typeof thing)).
Proof.
  destruct thing as [| |b|[z|]|z|s|id|id|xs|props]; try discriminate; intros _;
    simpl; try reflexivity.
  - destruct b; reflexivity.
  - destruct (z =? 0); reflexivity.
  - destruct (z =? 0); reflexivity.
  - destruct (String.eqb s EmptyString); reflexivity.
Qed.

Lemma describeShape_empty_array :
  describeShape (VArray []) = Normal (TypeDescription "Array<undefined>").
Proof. reflexivity. Qed.

Lemma describeShape_array_of_tag element rest tag :
  describeShape element = Normal (TypeDescription tag) ->
  describeShape (VArray (element :: rest))
  = Normal (TypeDescription ("Array<" +:+ tag +:+ ">")).
Proof.
  intros Helement. cbn [describeShape ToBoolean typeof negb orb String.eqb].
  simpl. rewrite Helement. reflexivity.
Qed.

(** The failure of the one-version chain on the record with a secret:
    the descriptor holds the tags only, and neither it nor the message
    contains the secret. *)
Lemma secret_record_not_disclosed :
  describeShape secret_record
  = Normal (ShapeDescription [("secret", TypeDescription "string");
                              ("count", TypeDescription "number")])
  /\ exists message shape,
       migrate setupV1 secret_record (Num 1) []
       = ([call_of v1 secret_record],
          Throw (MigrationError message validation_fail shape))
       /\ shape = ShapeDescription [("secret", TypeDescription "string");
                                    ("count", TypeDescription "number")]
       /\ includes "password123" message = false
       /\ existsb (includes "password123") (description_strings shape) = false.
Proof.
  split; [reflexivity|]. eexists. eexists.
  split; [reflexivity|]. split; [reflexivity|]. split; reflexivity.
Qed.

(** C6. An array whose first element is a record is not described by the
    descriptor of that element: the record's descriptor is interpolated as
    the fixed text "[object Object]", and when the record has a property
    named [toString] the interpolation throws and there is no descriptor
    at all. *)
Theorem C6_array_of_records_is_not_described :
  describeShape (VObject [("a", VNumber (Num 1))])
  = Normal (ShapeDescription [("a", TypeDescription "number")])
  /\ describeShape (VArray [VObject [("a", VNumber (Num 1))]])
     = Normal (TypeDescription "Array<[object Object]>")
  /\ describeShape (VArray [VObject [("b", VString "x"); ("c", VNull)]])
     = Normal (TypeDescription "Array<[object Object]>")
  /\ describeShape shadowing_toString = Throw TypeError_to_primitive.
Proof. repeat split. Qed.

(** ** Hydration *)

Section hydration_facts.

Import PersistenceEffects.

Context {TParent action : Type}.
Variable reducer : TParent -> action -> TParent.
Variable parseInt : string -> number.
Variable config : @Config TParent action.

(** C7. When the record read for the owner has a version other than the
    configured one and the migration returns the Reset Sentinel, the
    hydrate effect ends normally having removed the owner's key from the
    storage; the dispatched actions and the state of the store are as
    they were. *)
Theorem C7_reset_clears_record_and_skips_hydration
  (w : @world TParent action) (update : SyncUpdate) (o : string)
  (p : persisted) (t' : trace) :
  select config (store_state w) = Normal update ->
  owner update = Some o ->
  disk_get parseInt config o w = (w, Normal (Some p)) ->
  Number.strict_eq (stored_version p) (version config) = false ->
  migrate config (data p) (stored_version p) (calls w) = (t', Normal ResetSentinel) ->
  theHydrateEffect reducer parseInt config w
  = ({| storage := delete (getOwnedKey config o) (storage w);
        calls := t';
        dispatched := dispatched w;
        store_state := store_state w |}, Normal tt).
Proof.
  intros Hselect Howner Hget Hversion Hmigrate.
  unfold theHydrateEffect, bindH, getState, liftC. rewrite Hselect, Howner, Hget.
  unfold ensureVersionRelevance. rewrite Hversion.
  unfold bindH, liftM. rewrite Hmigrate. reflexivity.
Qed.

(** C8. When the record's version is the configured one,
    [ensureVersionRelevance] returns the record's data and leaves
    everything as it is: [migrate] is not called, so no validator runs,
    and nothing is written. The effect goes on to hydrate with that
    data in the unchanged world. *)
Theorem C8_same_version_skips_migration
  (w : @world TParent action) (o : string) (p : persisted) :
  Number.strict_eq (stored_version p) (version config) = true ->
  ensureVersionRelevance config p o w = (w, Normal (data p))
  /\ (forall update,
        select config (store_state w) = Normal update ->
        owner update = Some o ->
        disk_get parseInt config o w = (w, Normal (Some p)) ->
        theHydrateEffect reducer parseInt config w
        = if negb (ToBoolean (data p)) then (w, Normal tt)
          else hydrate_with reducer config (data p) w).
Proof.
  intros Hversion.
  assert (Hensure : ensureVersionRelevance config p o w = (w, Normal (data p))).
  { unfold ensureVersionRelevance. rewrite Hversion. reflexivity. }
  split; [exact Hensure|].
  intros update Hselect Howner Hget.
  unfold theHydrateEffect, bindH, getState, liftC. rewrite Hselect, Howner, Hget.
  rewrite Hensure. destruct (negb (ToBoolean (data p))); reflexivity.
Qed.

End hydration_facts.

Lemma C7_reset_clears_record_and_skips_hydration_witness :
  PersistenceEffects.theHydrateEffect (fun _ a => a) digits_parseInt test_config
    (test_world "2|123")
  = ({| PersistenceEffects.storage :=
          delete (PersistenceEffects.getOwnedKey test_config "static")
                 (PersistenceEffects.storage (test_world "2|123"));
        PersistenceEffects.calls := [];
        PersistenceEffects.dispatched := [];
        PersistenceEffects.store_state := VString "init" |}, Normal tt).
Proof.
  refine (C7_reset_clears_record_and_skips_hydration (fun _ a => a) digits_parseInt
            test_config (test_world "2|123")
            {| PersistenceEffects.owner := Some "static";
               PersistenceEffects.state := None;
               PersistenceEffects.skipSync := false |}
            "static"
            {| PersistenceEffects.data := VNumber (Num 123);
               PersistenceEffects.stored_version := Num 2 |}
            [] _ _ _ _ _).
  - reflexivity.
  - reflexivity.
  - vm_compute. reflexivity.
  - reflexivity.
  - reflexivity.
Defined.

Lemma C8_same_version_skips_migration_witness :
  PersistenceEffects.ensureVersionRelevance test_config
    {| PersistenceEffects.data := VNumber (Num 123);
       PersistenceEffects.stored_version := Num 1 |}
    "static" (test_world "1|123")
  = (test_world "1|123", Normal (VNumber (Num 123))).
Proof.
  refine (proj1 (C8_same_version_skips_migration (fun _ a => a) digits_parseInt
                   test_config (test_world "1|123") "static"
                   {| PersistenceEffects.data := VNumber (Num 123);
                      PersistenceEffects.stored_version := Num 1 |} _)).
  reflexivity.
Defined.

(** * Further properties *)

(** ** Induction on values *)

Lemma value_induction (P : value -> Prop) :
  (forall thing, is_primitive thing = true -> P thing) ->
  (forall elements, Forall P elements -> P (VArray elements)) ->
  (forall properties, Forall (fun kv => P (snd kv)) properties -> P (VObject properties)) ->
  forall thing, P thing.
Proof.
  intros Hprim Harray Hobject.
  fix IH 1. intros [| |b|n|z|s|id|id|elements|properties];
    try (apply Hprim; reflexivity).
  - apply Harray. induction elements as [|x xs IHxs]; constructor; [apply IH|exact IHxs].
  - apply Hobject. induction properties as [|[k x] ps IHps]; constructor;
      [apply IH|exact IHps].
Qed.

Lemma describeShape_object properties :
  describeShape (VObject properties)
  = bindC (describe_entries properties)
          (fun es => Normal (ShapeDescription (Object_fromEntries es))).
Proof.
  reflexivity.
Qed.

Lemma describeShape_array elements :
  describeShape (VArray elements)
  = bindC (describeShape (first_element elements)) array_template.
Proof. destruct elements; reflexivity. Qed.

Lemma description_induction (P : description -> Prop) :
  (forall tag, P (TypeDescription tag)) ->
  (forall entries, Forall (fun kd => P (snd kd)) entries -> P (ShapeDescription entries)) ->
  forall d, P d.
Proof.
  intros Htag Hentries. fix IH 1. intros [tag|entries]; [apply Htag|].
  apply Hentries. induction entries as [|[k d] es IHes]; constructor;
    [apply IH|exact IHes].
Qed.

(** ** [Object.fromEntries] *)

Lemma In_set_property {A} key (a : A) props kd :
  In kd (set_property key a props) -> kd = (key, a) \/ In kd props.
Proof.
  induction props as [|[k b] rest IH]; simpl.
  - intros [<-|[]]. left. reflexivity.
  - destruct (String.eqb_spec k key) as [->|Hne]; simpl.
    + intros [<-|Hin]; [left; reflexivity|right; right; exact Hin].
    + intros [<-|Hin]; [right; left; reflexivity|].
      destruct (IH Hin) as [->|Hin']; [left; reflexivity|right; right; exact Hin'].
Qed.

Lemma In_fold_set_property {A} (entries : list (string * A)) : forall obj kd,
  In kd (fold_left (fun o '(key, a) => set_property key a o) entries obj) ->
  In kd entries \/ In kd obj.
Proof.
  induction entries as [|[key a] rest IH]; intros obj kd; simpl.
  - intros Hin. right. exact Hin.
  - intros Hin. destruct (IH _ _ Hin) as [Hrest|Hset].
    + left. right. exact Hrest.
    + destruct (In_set_property _ _ _ _ Hset) as [->|Hobj];
        [left; left; reflexivity|right; exact Hobj].
Qed.

Lemma In_Object_fromEntries {A} (entries : list (string * A)) kd :
  In kd (Object_fromEntries entries) -> In kd entries.
Proof.
  intros Hin. destruct (In_fold_set_property entries [] kd Hin) as [H|[]]. exact H.
Qed.

Lemma has_property_set_property {A} k key (a : A) props :
  has_property k (set_property key a props) = String.eqb key k || has_property k props.
Proof.
  unfold has_property. induction props as [|[k' b] rest IH]; simpl.
  - rewrite orb_false_r. reflexivity.
  - destruct (String.eqb_spec k' key) as [->|Hne]; simpl.
    + destruct (String.eqb key k); reflexivity.
    + rewrite IH. destruct (String.eqb k' k), (String.eqb key k); reflexivity.
Qed.

Lemma has_property_fold_set_property {A} k (entries : list (string * A)) : forall obj,
  has_property k (fold_left (fun o '(key, a) => set_property key a o) entries obj)
  = has_property k entries || has_property k obj.
Proof.
  induction entries as [|[key a] rest IH]; intros obj; simpl.
  - reflexivity.
  - rewrite IH, has_property_set_property.
    destruct (String.eqb key k), (has_property k rest), (has_property k obj); reflexivity.
Qed.

Lemma has_property_Object_fromEntries {A} k (entries : list (string * A)) :
  has_property k (Object_fromEntries entries) = has_property k entries.
Proof.
  unfold Object_fromEntries. rewrite has_property_fold_set_property.
  simpl. apply orb_false_r.
Qed.

(** ** Descriptors of records *)

Lemma describe_entries_Normal props : forall es,
  describe_entries props = Normal es ->
  Forall2 (fun kv kd => fst kd = fst kv /\ describeShape (snd kv) = Normal (snd kd))
          props es.
Proof.
  induction props as [|[k v] rest IH]; intros es; simpl.
  - intros [= <-]. constructor.
  - destruct (describeShape v) as [d|e] eqn:Hd; simpl; [|discriminate].
    destruct (describe_entries rest) as [ds|e] eqn:Hds; simpl; [|discriminate].
    intros [= <-]. constructor; [split; [reflexivity|exact Hd]|]. apply IH. reflexivity.
Qed.

Lemma describe_entries_has_property k props es :
  describe_entries props = Normal es ->
  has_property k es = has_property k props.
Proof.
  intros H. apply describe_entries_Normal in H. unfold has_property.
  induction H as [|[k1 v] [k2 d] props es [Hk _] _ IH]; simpl in *; [reflexivity|].
  subst k2. rewrite IH. reflexivity.
Qed.

Lemma typeof_JsType thing : In (typeof thing) JsType.
Proof. destruct thing; simpl; tauto. Qed.

Lemma describeShape_throws thing : forall e,
  describeShape thing = Throw e -> e = TypeError_to_primitive.
Proof.
  induction thing as [thing Hprim|elements IH|properties IH] using value_induction;
    intros e.
  - rewrite describeShape_primitive by exact Hprim. discriminate.
  - rewrite describeShape_array.
    assert (Hfirst : forall e', describeShape (first_element elements) = Throw e' ->
                                e' = TypeError_to_primitive).
    { destruct IH as [|x xs Hx _]; [discriminate|exact Hx]. }
    destruct (describeShape (first_element elements)) as [d|e'] eqn:Hd; simpl.
    + unfold array_template.
      destruct d as [tag|entries]; simpl; [discriminate|].
      destruct (has_property "toString" entries); simpl; [|discriminate].
      intros [= <-]. reflexivity.
    + intros [= <-]. apply Hfirst. reflexivity.
  - rewrite describeShape_object.
    assert (Hentries : forall e', describe_entries properties = Throw e' ->
                                  e' = TypeError_to_primitive).
    { induction IH as [|[k v] rest Hv _ IHrest]; intros e'; simpl; [discriminate|].
      destruct (describeShape v) as [d|e1] eqn:Hd; simpl.
      - destruct (describe_entries rest) as [ds|e2]; simpl; [discriminate|].
        intros [= <-]. apply IHrest. reflexivity.
      - intros [= <-]. apply Hv. simpl. exact Hd. }
    destruct (describe_entries properties) as [es|e']; simpl; [discriminate|].
    intros [= <-]. apply Hentries. reflexivity.
Qed.

Lemma shape_over_mono keys keys' d :
  (forall k, In k keys -> In k keys') ->
  shape_over keys d -> shape_over keys' d.
Proof.
  intros Hsub. induction d as [tag|entries IH] using description_induction;
    intros Hd; inversion Hd as [tag' Htag|entries' Hentries]; subst.
  - constructor. exact Htag.
  - constructor. rewrite List.Forall_forall in *. intros kd Hin.
    destruct (Hentries kd Hin) as [Hk Hshape]. split; [apply Hsub, Hk|].
    apply (IH kd Hin). exact Hshape.
Qed.

Lemma describeShape_shape_over thing : forall d,
  describeShape thing = Normal d -> shape_over (keys_of thing) d.
Proof.
  induction thing as [thing Hprim|elements IH|properties IH] using value_induction;
    intros d.
  - rewrite describeShape_primitive by exact Hprim. intros [= <-].
    constructor. constructor. apply typeof_JsType.
  - rewrite describeShape_array.
    destruct (describeShape (first_element elements)) as [d0|e] eqn:Hd0; simpl;
      [|discriminate].
    assert (Hfirst : shape_over (keys_of (first_element elements)) d0).
    { destruct IH as [|x xs Hx _]; simpl in *.
      - injection Hd0 as <-. constructor. constructor. simpl. tauto.
      - apply Hx. exact Hd0. }
    unfold array_template. destruct d0 as [tag|entries]; simpl.
    + intros [= <-]. constructor. apply tag_Array.
      inversion Hfirst. assumption.
    + destruct (has_property "toString" entries); simpl; [discriminate|].
      intros [= <-]. constructor. apply tag_Array_of_object.
  - rewrite describeShape_object.
    destruct (describe_entries properties) as [es|e] eqn:Hes; simpl; [|discriminate].
    intros [= <-]. constructor. rewrite List.Forall_forall. intros kd Hin.
    apply In_Object_fromEntries in Hin.
    apply describe_entries_Normal in Hes.
    clear -IH Hes Hin.
    induction Hes as [|[k v] [k' d'] props es' [Hk Hd] _ IHes]; [destruct Hin|].
    simpl in Hk, Hd. subst k'.
    inversion IH as [|? ? Hv Hrest]; subst.
    destruct Hin as [<-|Hin]; simpl.
    + split; [left; reflexivity|].
      apply (shape_over_mono (keys_of v)); [|apply Hv; exact Hd].
      intros k0 Hk0. right. apply in_or_app. left. exact Hk0.
    + destruct (IHes Hrest Hin) as [Hk1 Hs1]. split.
      * right. apply in_or_app. right. exact Hk1.
      * apply (shape_over_mono (keys_of (VObject props))); [|exact Hs1].
        intros k0 Hk0. simpl. right. apply in_or_app. right. exact Hk0.
Qed.

Lemma shape_over_strings keys d :
  shape_over keys d ->
  Forall (fun s => type_tag s \/ In s keys) (description_strings d).
Proof.
  induction d as [tag|entries IH] using description_induction;
    intros Hd; inversion Hd as [tag' Htag|entries' Hentries]; subst; simpl.
  - constructor; [left; exact Htag|constructor].
  - rewrite List.Forall_forall in *. intros s Hs.
    apply in_flat_map in Hs as [[k d] [Hkd Hs]].
    destruct (Hentries _ Hkd) as [Hk Hshape]. simpl in *.
    destruct Hs as [<-|Hs]; [right; exact Hk|].
    specialize (IH _ Hkd Hshape). rewrite List.Forall_forall in IH. apply IH. exact Hs.
Qed.

Lemma describeShape_no_toString thing :
  no_toString_key thing = true ->
  exists d, describeShape thing = Normal d
            /\ exists s, description_ToString d = Normal s.
Proof.
  induction thing as [thing Hprim|elements IH|properties IH] using value_induction;
    intros Hno.
  - rewrite describeShape_primitive by exact Hprim. simpl. eauto.
  - rewrite describeShape_array.
    assert (Hfirst : exists d, describeShape (first_element elements) = Normal d
                               /\ exists s, description_ToString d = Normal s).
    { destruct IH as [|x xs Hx _]; simpl in *; [eauto|].
      apply Hx. apply andb_true_iff in Hno. tauto. }
    destruct Hfirst as [d [-> [s Hs]]]. simpl. unfold array_template. rewrite Hs.
    simpl. eauto.
  - rewrite describeShape_object. simpl in Hno. apply andb_true_iff in Hno as [Hown Hrest].
    assert (Hentries : exists es, describe_entries properties = Normal es).
    { clear Hown. induction IH as [|[k v] rest Hv _ IHrest]; simpl in *; [eauto|].
      apply andb_true_iff in Hrest as [Hv' Hrest].
      destruct (Hv Hv') as [d [-> _]]. destruct (IHrest Hrest) as [ds ->].
      simpl. eauto. }
    destruct Hentries as [es Hes]. rewrite Hes. simpl.
    eexists. split; [reflexivity|]. simpl.
    rewrite has_property_Object_fromEntries.
    rewrite (describe_entries_has_property _ _ _ Hes).
    apply negb_true_iff in Hown. rewrite Hown. eauto.
Qed.

(** ** The runner, further *)

Lemma run_NaN (migrations : list MigrationFn) data t :
  Migrations.run migrations data NaN t = (t, Normal data).
Proof.
  unfold Migrations.run, Migrations.try_block. cbn [var_version Number.gt].
  rewrite for_loop_exit by reflexivity. reflexivity.
Qed.

(** X1. A version that is [NaN] passes every comparison by: [migrate]
    returns the data as it came, and no validator or upgrade is called. *)
Theorem migrate_NaN_returns_data_unvalidated
  (migrationsDefinition : list builder_call) (data : value) (t : trace) :
  migrate (buildMigration migrationsDefinition) data NaN t = (t, Normal data).
Proof.
  unfold buildMigration. cbn [migrate]. apply run_NaN.
Qed.

(** X2. Whatever [migrate] returns for a stored version between 1 and the
    current one is a value the current-version validator returned, and
    that validator's call is the last one made. *)
Theorem migrate_result_comes_from_current_validator
  (validate : user_fn) (older : list (user_fn * user_fn))
  (data : value) (persistedVersion : Z) (t t' : trace) (result : value) :
  1 <= persistedVersion <= 1 + Z.of_nat (length older) ->
  migrate (buildMigration (chain validate older)) data (Num persistedVersion) t
  = (t', Normal result) ->
  exists checked t0,
    fn_body validate checked = Normal result
    /\ t' = t0 ++ [call_of validate checked].
Proof.
  intros Hrange. rewrite migrate_chain.
  rewrite run_in_range by (rewrite length_stored_steps; lia).
  unfold stored_steps.
  rewrite drop_app_le by (rewrite length_rev, length_map; lia).
  rewrite replay_app.
  destruct (replay (drop _ (rev _)) _ t) as [t1 [vars [[]|e]]].
  - cbn [replay]. unfold invoke at 1. fold (call_of validate (var_state vars)).
    destruct (fn_body validate (var_state vars)) as [r|e] eqn:Hbody.
    + intros [= <- <-]. eauto.
    + intros [= _ Hthrow]. exfalso.
      exact (throw_new_MigrationError_not_Normal _ _ _ Hthrow).
  - intros [= _ Hthrow]. exfalso.
    exact (throw_new_MigrationError_not_Normal _ _ _ Hthrow).
Qed.

Lemma migrate_result_comes_from_current_validator_witness :
  exists checked t0,
    fn_body v3 checked = Normal (VObject [("baz", VString "123")])
    /\ [call_of v2 dataV2; call_of (v2_to_v3 decimal_String) dataV2;
        call_of v3 (VObject [("baz", VString "123")])]
       = t0 ++ [call_of v3 checked].
Proof.
  apply (migrate_result_comes_from_current_validator v3
           [(v2, v2_to_v3 decimal_String); (v1, v1_to_v2 decimal_Number)]
           dataV2 2 []).
  - simpl. lia.
  - reflexivity.
Defined.

(** X3. An error that leaves [migrate] is a [MigrationError] or the
    [TypeError] of a descriptor's string conversion: an error of a
    validator or an upgrade never leaves as it is. *)
Theorem migrate_throws_MigrationError_or_conversion_TypeError
  (migrationsDefinition : list builder_call) (data : value)
  (persistedVersion : number) (t t' : trace) (thrown : exn) :
  migrate (buildMigration migrationsDefinition) data persistedVersion t
  = (t', Throw thrown) ->
  (exists message cause shape, thrown = MigrationError message cause shape)
  \/ thrown = TypeError_to_primitive.
Proof.
  unfold buildMigration. cbn [migrate]. unfold Migrations.run.
  destruct (Migrations.try_block _ _ t) as [t1 [vars [r|e]]]; [discriminate|].
  unfold throw_new_MigrationError, new_MigrationError.
  destruct (describeShape _) as [shape|e'] eqn:Hshape; simpl.
  - intros [= _ <-]. left. eauto.
  - intros [= _ <-]. right. exact (describeShape_throws _ _ Hshape).
Qed.

Lemma migrate_throws_MigrationError_or_conversion_TypeError_witness :
  (exists message cause shape,
     TypeError_to_primitive = MigrationError message cause shape)
  \/ TypeError_to_primitive = TypeError_to_primitive.
Proof.
  apply (migrate_throws_MigrationError_or_conversion_TypeError
           (chain v1 []) shadowing_toString (Num 1) [] [call_of v1 shadowing_toString]).
  reflexivity.
Defined.

(** X4. A value none of whose records has a property named [toString]
    always has a descriptor. *)
Theorem describeShape_succeeds_without_toString (thing : value) :
  no_toString_key thing = true ->
  exists d, describeShape thing = Normal d.
Proof.
  intros Hno. destruct (describeShape_no_toString thing Hno) as [d [Hd _]]. eauto.
Qed.

Lemma describeShape_succeeds_without_toString_witness :
  exists d, describeShape nested_record = Normal d.
Proof.
  apply (describeShape_succeeds_without_toString nested_record). reflexivity.
Defined.

Lemma run_failing_step (migrations : list MigrationFn) data (v k : Z) t t1 t2 s_k
  (f : MigrationFn) e :
  1 <= v <= k ->
  k <= Z.of_nat (length migrations) ->
  apply_steps (take (Z.to_nat (k - v)) (drop (Z.to_nat (v - 1)) migrations)) data t
  = (t1, Normal s_k) ->
  migrations !! Z.to_nat (k - 1) = Some f ->
  f s_k t1 = (t2, Throw e) ->
  replay (drop (Z.to_nat (v - 1)) migrations)
         {| var_state := data; var_version := Num v |} t
  = (t2, ({| var_state := s_k; var_version := Num k |}, Throw e)).
Proof.
  intros Hv Hk Hprefix Hf Hthrow.
  rewrite <- (take_drop (Z.to_nat (k - v)) (drop (Z.to_nat (v - 1)) migrations)) at 1.
  rewrite replay_app.
  rewrite (replay_normal _ _ v _ _ _ Hprefix).
  rewrite length_take, length_drop.
  replace (Z.of_nat (Z.to_nat (k - v) `min` (length migrations - Z.to_nat (v - 1))))
    with (k - v) by lia.
  rewrite drop_drop.
  replace (Z.to_nat (v - 1) + Z.to_nat (k - v))%nat with (Z.to_nat (k - 1)) by lia.
  rewrite (drop_S _ _ _ Hf). cbn [replay var_state]. rewrite Hthrow.
  replace (v + (k - v)) with k by lia. reflexivity.
Qed.

(** X5. When the steps from the stored version up to [k - 1] go through,
    leaving a value with no property named [toString], and step [k] throws
    [e], then [migrate] throws a [MigrationError] whose cause is [e] and
    whose shape is the descriptor of that value. *)
Theorem migrate_wraps_error_of_failing_step
  (migrations : list MigrationFn) (data : value) (v k : Z)
  (t t1 t2 : trace) (s_k : value) (f : MigrationFn) (e : exn) :
  1 <= v <= k ->
  k <= Z.of_nat (length migrations) ->
  apply_steps (take (Z.to_nat (k - v)) (drop (Z.to_nat (v - 1)) migrations)) data t
  = (t1, Normal s_k) ->
  migrations !! Z.to_nat (k - 1) = Some f ->
  f s_k t1 = (t2, Throw e) ->
  no_toString_key s_k = true ->
  exists message shape,
    Migrations.run migrations data (Num v) t
    = (t2, Throw (MigrationError message e shape))
    /\ describeShape s_k = Normal shape.
Proof.
  intros Hv Hk Hprefix Hf Hthrow Hno.
  destruct (describeShape_no_toString s_k Hno) as [shape [Hshape _]].
  destruct (run_throw_describable migrations data v t t2
              {| var_state := s_k; var_version := Num k |} e shape) as [message Hrun].
  - lia.
  - exact (run_failing_step _ _ _ _ _ _ _ _ _ _ Hv Hk Hprefix Hf Hthrow).
  - exact Hshape.
  - eauto.
Qed.

Lemma migrate_wraps_error_of_failing_step_witness :
  exists message shape,
    Migrations.run mismatched_chain dataV1 (Num 1) []
    = ([call_of v1 dataV1; call_of (v1_to_v2 decimal_Number) dataV1; call_of v3 dataV2],
       Throw (MigrationError message validation_fail shape))
    /\ describeShape dataV2 = Normal shape.
Proof.
  refine (migrate_wraps_error_of_failing_step mismatched_chain dataV1 1 2
            [] [call_of v1 dataV1; call_of (v1_to_v2 decimal_Number) dataV1]
            [call_of v1 dataV1; call_of (v1_to_v2 decimal_Number) dataV1; call_of v3 dataV2]
            dataV2
            (validate_then_upgrade v3 (v2_to_v3 decimal_String))
            validation_fail _ _ _ _ _ _).
  - lia.
  - simpl. lia.
  - reflexivity.
  - reflexivity.
  - reflexivity.
  - reflexivity.
Defined.

(** X6. Every string in a descriptor is a type tag or the name of a
    property of the described value; what the value's strings, numbers
    and other data are does not get into it. *)
Theorem describeShape_holds_only_tags_and_keys (thing : value) (d : description) :
  describeShape thing = Normal d ->
  Forall (fun s => type_tag s \/ In s (keys_of thing)) (description_strings d).
Proof.
  intros Hd. apply shape_over_strings. apply describeShape_shape_over. exact Hd.
Qed.

Lemma describeShape_holds_only_tags_and_keys_witness :
  Forall (fun s => type_tag s \/ In s (keys_of nested_record))
         (description_strings
            (ShapeDescription
               [("user", ShapeDescription [("name", TypeDescription "string");
                                           ("tags", TypeDescription "Array<string>")]);
                ("visits", TypeDescription "Array<undefined>")])).
Proof.
  apply (describeShape_holds_only_tags_and_keys nested_record). reflexivity.
Defined.

(** ** The message of a [MigrationError] *)

Lemma length_substring_from_start n : forall s,
  (String.length (String.substring 0 n s) <= n)%nat.
Proof.
  induction n as [|n IH]; intros [|c s]; simpl; try lia.
  specialize (IH s). lia.
Qed.

Lemma prefix_substring_from_start n : forall s,
  String.prefix (String.substring 0 n s) s = true.
Proof.
  induction n as [|n IH]; intros [|c s]; simpl; try reflexivity.
  destruct (Ascii.ascii_dec c c) as [_|Hne]; [apply IH|congruence].
Qed.

Lemma string_append_assoc (a b c : string) : (a +:+ b) +:+ c = a +:+ (b +:+ c).
Proof.
  induction a as [|x a IH]; [reflexivity|].
  change (String x ((a +:+ b) +:+ c) = String x (a +:+ (b +:+ c))).
  f_equal. exact IH.
Qed.

(** X7. The message of a [MigrationError] is the fixed sentence naming the
    two versions followed by at most 60 characters, which are the start of
    the serialized descriptor; the error carries the cause it was given and
    the descriptor of the data. *)
Theorem MigrationError_message_is_truncated
  (cause cause' : exn) (m : meta) (message : string) (shape : description) :
  new_MigrationError cause m = Normal (MigrationError message cause' shape) ->
  cause' = cause
  /\ describeShape (persistedData m) = Normal shape
  /\ exists body,
       message = message_header m +:+ body
       /\ (String.length body <= 60)%nat
       /\ String.prefix body (JSON_stringify shape) = true.
Proof.
  unfold new_MigrationError.
  destruct (describeShape (persistedData m)) as [d|e]; simpl; [|discriminate].
  intros [= <- <- <-]. split; [reflexivity|]. split; [reflexivity|].
  exists (slice_from_start 60 (JSON_stringify d)). split; [|split].
  - unfold message_header. rewrite !string_append_assoc. reflexivity.
  - apply length_substring_from_start.
  - apply prefix_substring_from_start.
Qed.

Lemma MigrationError_message_is_truncated_witness :
  let m := {| fromVersion := Num 1; toVersion := Num 3; persistedData := wide_record |} in
  validation_fail = validation_fail
  /\ describeShape (persistedData m) = Normal wide_shape
  /\ exists body,
       message_header m +:+ slice_from_start 60 (JSON_stringify wide_shape)
       = message_header m +:+ body
       /\ (String.length body <= 60)%nat
       /\ String.prefix body (JSON_stringify wide_shape) = true.
Proof.
  apply (MigrationError_message_is_truncated validation_fail validation_fail
           {| fromVersion := Num 1; toVersion := Num 3; persistedData := wide_record |}
           (message_header
              {| fromVersion := Num 1; toVersion := Num 3; persistedData := wide_record |}
            +:+ slice_from_start 60 (JSON_stringify wide_shape))
           wide_shape).
  vm_compute. reflexivity.
Defined.

(** ** The builder, further *)

Lemma perform_all_steps (calls : list builder_call) : forall migrations,
  perform_all calls migrations = rev (map step_of calls) ++ migrations.
Proof.
  unfold perform_all.
  induction calls as [|c calls IH]; intros migrations; simpl; [reflexivity|].
  rewrite IH, <- app_assoc. destruct c; reflexivity.
Qed.

(** X8. Whatever calls a definition makes on the builder, in whatever
    order and on whichever builder object, the version is the number of
    calls, and [migrate] runs over the steps in the reverse of the order
    they were declared in: the step declared last is the step of version
    1. *)
Theorem version_counts_builder_calls (migrationsDefinition : list builder_call) :
  version (buildMigration migrationsDefinition)
  = Num (Z.of_nat (length migrationsDefinition))
  /\ migrate (buildMigration migrationsDefinition)
     = Migrations.run (rev (map step_of migrationsDefinition)).
Proof.
  unfold buildMigration. cbn [version migrate].
  rewrite perform_all_steps, app_nil_r.
  unfold Migrations.currentVersion. rewrite length_rev, length_map. split; reflexivity.
Qed.

(** X9. For any definition, also one that declares nothing, a version
    below 1 makes [migrate] throw before any validator or upgrade is
    called; for data with no property named [toString] what it throws is
    a [MigrationError] whose cause is the failed call's [TypeError]. *)
Theorem migrate_below_one_throws
  (migrationsDefinition : list builder_call) (data : value) (z : Z) (t : trace) :
  z < 1 ->
  fst (migrate (buildMigration migrationsDefinition) data (Num z) t) = t
  /\ (forall result,
        snd (migrate (buildMigration migrationsDefinition) data (Num z) t)
        <> Normal result)
  /\ (no_toString_key data = true ->
      exists message shape,
        snd (migrate (buildMigration migrationsDefinition) data (Num z) t)
        = Throw (MigrationError message TypeError_not_a_function shape)).
Proof.
  intros Hz. unfold buildMigration. cbn [migrate].
  set (migrations := perform_all migrationsDefinition []).
  assert (Hrun : Migrations.run migrations data (Num z) t
                 = (t, throw_new_MigrationError TypeError_not_a_function
                         {| persistedData := data;
                            fromVersion := Num z;
                            toVersion := Migrations.currentVersion migrations |})).
  { unfold Migrations.run, Migrations.try_block. simpl.
    destruct (Z.ltb_spec (Z.of_nat (length migrations)) z); [lia|].
    rewrite for_loop_iterate by (simpl; apply Z.leb_le; lia).
    rewrite call_step_below_one by exact Hz. reflexivity. }
  rewrite Hrun. cbn [fst snd]. split; [reflexivity|]. split.
  - intros result. apply throw_new_MigrationError_not_Normal.
  - intros Hno. destruct (describeShape_no_toString data Hno) as [shape [Hshape _]].
    erewrite throw_new_MigrationError_shape by exact Hshape. eauto.
Qed.

Lemma migrate_below_one_throws_witness :
  fst (migrate (buildMigration []) dataV1 (Num 0) []) = []
  /\ (forall result,
        snd (migrate (buildMigration []) dataV1 (Num 0) []) <> Normal result)
  /\ (no_toString_key dataV1 = true ->
      exists message shape,
        snd (migrate (buildMigration []) dataV1 (Num 0) [])
        = Throw (MigrationError message TypeError_not_a_function shape)).
Proof.
  apply (migrate_below_one_throws [] dataV1 0 []). lia.
Defined.

(** ** Strings *)

Lemma string_append_cons x (a b : string) : String x a +:+ b = String x (a +:+ b).
Proof. reflexivity. Qed.

Lemma string_length_append (a b : string) :
  String.length (a +:+ b) = (String.length a + String.length b)%nat.
Proof.
  induction a as [|x a IH]; [reflexivity|].
  rewrite string_append_cons. simpl. rewrite IH. reflexivity.
Qed.

Lemma substring_whole (s : string) : String.substring 0 (String.length s) s = s.
Proof. induction s as [|x s IH]; simpl; [reflexivity|]. rewrite IH. reflexivity. Qed.

Lemma substring_append_left (a b : string) :
  String.substring 0 (String.length a) (a +:+ b) = a.
Proof.
  induction a as [|x a IH]; [destruct b; reflexivity|].
  rewrite string_append_cons. simpl. rewrite IH. reflexivity.
Qed.

Lemma substring_append_right (a b : string) n m :
  String.substring (String.length a + n) m (a +:+ b) = String.substring n m b.
Proof.
  induction a as [|x a IH]; [reflexivity|].
  rewrite string_append_cons. simpl. exact IH.
Qed.

Lemma prefix_append (a b : string) : String.prefix a (a +:+ b) = true.
Proof.
  induction a as [|x a IH]; [destruct b; reflexivity|].
  rewrite string_append_cons. simpl.
  destruct (Ascii.ascii_dec x x) as [_|Hne]; [exact IH|congruence].
Qed.



Lemma index_of_first_char c (a b : string) :
  has_char c a = false ->
  String.index 0 (String c EmptyString) (a +:+ String c b) = Some (String.length a).
Proof.
  induction a as [|x a IH]; intros Hno.
  - simpl. destruct (Ascii.ascii_dec c c) as [_|Hne]; [|congruence].
    destruct b; reflexivity.
  - simpl in Hno. apply orb_false_iff in Hno as [Hx Hrest].
    rewrite string_append_cons. simpl.
    destruct (Ascii.ascii_dec c x) as [->|Hne].
    + rewrite Ascii.eqb_refl in Hx. discriminate.
    + rewrite (IH Hrest). reflexivity.
Qed.

Lemma index_of_absent_char c (s : string) :
  has_char c s = false ->
  String.index 0 (String c EmptyString) s = None.
Proof.
  induction s as [|x s IH]; intros Hno; [reflexivity|].
  simpl in Hno. apply orb_false_iff in Hno as [Hx Hrest]. simpl.
  destruct (Ascii.ascii_dec c x) as [->|Hne].
  - rewrite Ascii.eqb_refl in Hx. discriminate.
  - rewrite (IH Hrest). reflexivity.
Qed.

Lemma has_char_append c (a b : string) :
  has_char c (a +:+ b) = has_char c a || has_char c b.
Proof.
  induction a as [|x a IH]; [reflexivity|].
  rewrite string_append_cons. simpl. rewrite IH. apply orb_assoc.
Qed.

(** Decimal numerals hold digits and a sign only. *)
Lemma pretty_N_go_no_separator (x : N) : forall s,
  has_char separator_char s = false ->
  has_char separator_char (pretty_N_go x s) = false.
Proof.
  induction (N.lt_wf_0 x) as [x _ IH]; intros s Hs.
  destruct (decide (x = 0)%N) as [->|Hx]; [rewrite pretty_N_go_0; exact Hs|].
  rewrite pretty_N_go_step by lia. apply IH.
  - apply N.div_lt; lia.
  - simpl. rewrite Hs. unfold pretty_N_char.
    repeat case_match; reflexivity.
Qed.

Lemma toString_no_separator (n : number) :
  has_char separator_char (Number.toString n) = false.
Proof.
  destruct n as [[|p|p]|]; try reflexivity.
  - unfold Number.toString, pretty, pretty_Z, pretty, pretty_positive, pretty, pretty_N.
    destruct (decide _); [reflexivity|]. apply pretty_N_go_no_separator. reflexivity.
  - unfold Number.toString, pretty, pretty_Z.
    rewrite has_char_append. simpl.
    unfold pretty, pretty_positive, pretty, pretty_N.
    destruct (decide _); [reflexivity|]. apply pretty_N_go_no_separator. reflexivity.
Qed.

(** ** Disk space *)

Section disk_facts.

Import PersistenceEffects.

Context {TParent action : Type}.
Variable parseInt : string -> number.
Variable config : @Config TParent action.

Lemma indexOf_record (versionText serialized : string) :
  has_char separator_char versionText = false ->
  indexOf separator (versionText +:+ separator +:+ serialized)
  = Z.of_nat (String.length versionText).
Proof.
  intros Hno. unfold indexOf.
  change (separator +:+ serialized) with (String separator_char serialized).
  change separator with (String separator_char EmptyString).
  rewrite (index_of_first_char _ _ _ Hno). reflexivity.
Qed.

Lemma slice_record_version (versionText serialized : string) :
  slice (versionText +:+ separator +:+ serialized) 0
        (Some (Z.of_nat (String.length versionText)))
  = versionText.
Proof.
  unfold slice. rewrite string_length_append.
  change (0 <? 0) with false. cbv beta iota.
  destruct (Z.ltb_spec (Z.of_nat (String.length versionText)) 0); [lia|].
  rewrite Z.min_l by lia. rewrite Z.min_l by lia.
  replace (Z.to_nat (Z.of_nat (String.length versionText) - 0))
    with (String.length versionText) by lia.
  apply substring_append_left.
Qed.

Lemma slice_record_data (versionText serialized : string) :
  slice (versionText +:+ separator +:+ serialized)
        (Z.of_nat (String.length versionText) + 1) None
  = serialized.
Proof.
  unfold slice. rewrite string_length_append.
  change (separator +:+ serialized) with (String separator_char serialized).
  cbn [String.length].
  destruct (Z.ltb_spec (Z.of_nat (String.length versionText) + 1) 0); [lia|].
  rewrite Z.min_l by lia.
  replace (Z.to_nat (Z.of_nat (String.length versionText) + 1))
    with (String.length versionText + 1)%nat by lia.
  rewrite substring_append_right.
  replace (Z.to_nat _) with (String.length serialized) by lia.
  simpl. apply substring_whole.
Qed.

Lemma record_not_empty (versionText serialized : string) :
  String.eqb (versionText +:+ separator +:+ serialized) EmptyString = false.
Proof.
  apply String.eqb_neq. intros Heq.
  apply (f_equal String.length) in Heq. rewrite string_length_append in Heq.
  change (separator +:+ serialized) with (String separator_char serialized) in Heq.
  simpl in Heq. lia.
Qed.

Lemma getOwnedKey_inj (o o' : string) :
  getOwnedKey config o = getOwnedKey config o' -> o = o'.
Proof. unfold getOwnedKey. apply String.app_inj. Qed.

Lemma disk_get_after_set
  (w : @world TParent action) (o : string) (st : value) (serialized : string) :
  stringify (json config) st = Normal serialized ->
  let w' := fst (disk_set config o st w) in
  disk_set config o st w = (w', Normal tt)
  /\ storage w'
     = <[getOwnedKey config o :=
           Number.toString (version config) +:+ separator +:+ serialized]> (storage w)
  /\ disk_get parseInt config o w'
     = (w', match parse (json config) serialized with
            | Throw e => Throw e
            | Normal d =>
                if is_nullish d then Normal None
                else Normal (Some {| data := d;
                                     stored_version :=
                                       parseInt (Number.toString (version config)) |})
            end).
Proof.
  intros Hser w'. subst w'.
  unfold disk_set, bindH, liftC. rewrite Hser. cbn [setItem fst].
  split; [reflexivity|]. split; [reflexivity|].
  unfold disk_get. cbn [storage]. rewrite lookup_insert_eq.
  rewrite record_not_empty.
  rewrite (indexOf_record _ _ (toString_no_separator (version config))).
  rewrite slice_record_version, slice_record_data.
  destruct (parse (json config) serialized) as [d|e]; [|reflexivity].
  destruct (is_nullish d); reflexivity.
Qed.

(** X10. What [set] stores, [get] reads back: after [disk.set(owner,
    state)] the record read for the owner holds what the serializer's
    [parse] makes of the serialized state, under the version [parseInt]
    reads from the text of the configured version; a state that parses
    to null or undefined reads as no record, and a [parse] that throws
    makes [get] throw. *)
Theorem disk_set_then_get
  (w : @world TParent action) (o : string) (st : value) (serialized : string) :
  stringify (json config) st = Normal serialized ->
  let w' := fst (disk_set config o st w) in
  disk_set config o st w = (w', Normal tt)
  /\ storage w'
     = <[getOwnedKey config o :=
           Number.toString (version config) +:+ separator +:+ serialized]> (storage w)
  /\ disk_get parseInt config o w'
     = (w', match parse (json config) serialized with
            | Throw e => Throw e
            | Normal d =>
                if is_nullish d then Normal None
                else Normal (Some {| data := d;
                                     stored_version :=
                                       parseInt (Number.toString (version config)) |})
            end).
Proof. exact (disk_get_after_set w o st serialized). Qed.

(** X11. After [disk.clear(owner)] there is no record for the owner. *)
Theorem disk_clear_then_get (w : @world TParent action) (o : string) :
  let w' := fst (disk_clear config o w) in
  disk_clear config o w = (w', Normal tt)
  /\ disk_get parseInt config o w' = (w', Normal None).
Proof.
  cbn zeta. unfold disk_clear, removeItem. cbn [fst]. split; [reflexivity|].
  unfold disk_get. cbn [storage]. rewrite lookup_delete_eq. reflexivity.
Qed.

(** X12. Owners do not share records: writing or clearing the record of
    one owner leaves what is read for any other owner as it was. *)
Theorem disk_owners_are_separate
  (w : @world TParent action) (o o' : string) (st : value) :
  o <> o' ->
  snd (disk_get parseInt config o' (fst (disk_set config o st w)))
  = snd (disk_get parseInt config o' w)
  /\ snd (disk_get parseInt config o' (fst (disk_clear config o w)))
     = snd (disk_get parseInt config o' w).
Proof.
  intros Hne.
  assert (Hkey : getOwnedKey config o <> getOwnedKey config o').
  { intros Heq. apply Hne. exact (getOwnedKey_inj _ _ Heq). }
  split.
  - unfold disk_set, bindH, liftC.
    destruct (stringify (json config) st) as [serialized|e]; [|reflexivity].
    cbn [setItem fst]. unfold disk_get. cbn [storage].
    rewrite lookup_insert_ne by exact Hkey.
    destruct (storage w !! getOwnedKey config o') as [stored|]; [|reflexivity].
    destruct (String.eqb stored EmptyString); [reflexivity|].
    destruct (parse (json config) _) as [d|e]; [|reflexivity].
    destruct (is_nullish d); reflexivity.
  - unfold disk_clear, removeItem. cbn [fst]. unfold disk_get. cbn [storage].
    rewrite lookup_delete_ne by exact Hkey.
    destruct (storage w !! getOwnedKey config o') as [stored|]; [|reflexivity].
    destruct (String.eqb stored EmptyString); [reflexivity|].
    destruct (parse (json config) _) as [d|e]; [|reflexivity].
    destruct (is_nullish d); reflexivity.
Qed.

(** X13. A stored string without the separator is still read: the whole
    string is parsed as the data, and the version is read from the string
    without its last character. *)
Theorem disk_get_without_separator
  (w : @world TParent action) (o : string) (stored : string) :
  storage w !! getOwnedKey config o = Some stored ->
  stored <> EmptyString ->
  has_char separator_char stored = false ->
  disk_get parseInt config o w
  = (w, match parse (json config) stored with
        | Throw e => Throw e
        | Normal d =>
            if is_nullish d then Normal None
            else Normal (Some {| data := d;
                                 stored_version :=
                                   parseInt (String.substring
                                               0 (String.length stored - 1) stored) |})
        end).
Proof.
  intros Hstored Hne Hno. unfold disk_get. rewrite Hstored.
  apply String.eqb_neq in Hne. rewrite Hne.
  assert (Hindex : indexOf separator stored = -1).
  { unfold indexOf. change separator with (String separator_char EmptyString).
    rewrite (index_of_absent_char _ _ Hno). reflexivity. }
  rewrite Hindex.
  assert (Hlen : (0 < String.length stored)%nat).
  { destruct stored; [discriminate|simpl; lia]. }
  assert (Hversion : slice stored 0 (Some (-1))
                     = String.substring 0 (String.length stored - 1) stored).
  { unfold slice. change (0 <? 0) with false. change (-1 <? 0) with true. cbv beta iota.
    rewrite Z.min_l by lia. rewrite Z.max_l by lia. f_equal. lia. }
  assert (Hdata : slice stored (-1 + 1) None = stored).
  { unfold slice. change (-1 + 1) with 0. change (0 <? 0) with false. cbv beta iota.
    rewrite Z.min_l by lia.
    replace (Z.to_nat (Z.of_nat (String.length stored) - 0))
      with (String.length stored) by lia.
    apply substring_whole. }
  rewrite Hversion, Hdata.
  destruct (parse (json config) stored) as [d|e]; [|reflexivity].
  destruct (is_nullish d); reflexivity.
Qed.

End disk_facts.

Lemma disk_set_then_get_witness :
  let w' := fst (PersistenceEffects.disk_set test_config "static" (VNumber (Num 123))
                   (test_world "1|5")) in
  PersistenceEffects.disk_set test_config "static" (VNumber (Num 123)) (test_world "1|5")
  = (w', Normal tt)
  /\ PersistenceEffects.storage w'
     = <[PersistenceEffects.getOwnedKey test_config "static" :=
           Number.toString (PersistenceEffects.version test_config)
             +:+ PersistenceEffects.separator +:+ "123"]>
         (PersistenceEffects.storage (test_world "1|5"))
  /\ PersistenceEffects.disk_get digits_parseInt test_config "static" w'
     = (w', match PersistenceEffects.parse (PersistenceEffects.json test_config) "123" with
            | Throw e => Throw e
            | Normal d =>
                if PersistenceEffects.is_nullish d then Normal None
                else Normal (Some {| PersistenceEffects.data := d;
                                     PersistenceEffects.stored_version :=
                                       digits_parseInt
                                         (Number.toString
                                            (PersistenceEffects.version test_config)) |})
            end).
Proof.
  apply (disk_set_then_get digits_parseInt test_config (test_world "1|5") "static"
           (VNumber (Num 123)) "123").
  reflexivity.
Defined.

Lemma disk_owners_are_separate_witness :
  snd (PersistenceEffects.disk_get digits_parseInt test_config "static"
         (fst (PersistenceEffects.disk_set test_config "other" (VNumber (Num 9))
                 (test_world "1|5"))))
  = snd (PersistenceEffects.disk_get digits_parseInt test_config "static"
           (test_world "1|5"))
  /\ snd (PersistenceEffects.disk_get digits_parseInt test_config "static"
            (fst (PersistenceEffects.disk_clear test_config "other" (test_world "1|5"))))
     = snd (PersistenceEffects.disk_get digits_parseInt test_config "static"
              (test_world "1|5")).
Proof.
  apply (disk_owners_are_separate digits_parseInt test_config (test_world "1|5")
           "other" "static" (VNumber (Num 9))).
  discriminate.
Defined.

Lemma disk_get_without_separator_witness :
  PersistenceEffects.disk_get digits_parseInt test_config "static" (test_world "77")
  = (test_world "77",
     match PersistenceEffects.parse (PersistenceEffects.json test_config) "77" with
     | Throw e => Throw e
     | Normal d =>
         if PersistenceEffects.is_nullish d then Normal None
         else Normal (Some {| PersistenceEffects.data := d;
                              PersistenceEffects.stored_version :=
                                digits_parseInt
                                  (String.substring 0 (String.length "77" - 1) "77") |})
     end).
Proof.
  apply (disk_get_without_separator digits_parseInt test_config (test_world "77")
           "static" "77").
  - vm_compute. reflexivity.
  - discriminate.
  - reflexivity.
Defined.

(** ** Hydration, further *)

Section hydration_more.

Import PersistenceEffects.

Context {TParent action : Type}.
Variable reducer : TParent -> action -> TParent.
Variable parseInt : string -> number.
Variable config : @Config TParent action.

(** X14. With no owner selected, or no record stored for the owner, the
    hydrate effect ends normally and changes nothing: nothing is written,
    no validator runs, nothing is dispatched. *)
Theorem hydrate_without_owner_or_record
  (w : @world TParent action) (update : SyncUpdate) :
  select config (store_state w) = Normal update ->
  owner update = None
  \/ (exists o, owner update = Some o
                /\ disk_get parseInt config o w = (w, Normal None)) ->
  theHydrateEffect reducer parseInt config w = (w, Normal tt).
Proof.
  intros Hselect Hcase.
  unfold theHydrateEffect, bindH, getState, liftC. rewrite Hselect.
  destruct Hcase as [->|[o [-> Hget]]]; [reflexivity|].
  rewrite Hget. reflexivity.
Qed.

(** X15. An error thrown by [migrate] leaves the hydrate effect as it is:
    the effect throws it, the storage keeps the record, and nothing is
    dispatched. *)
Theorem hydrate_propagates_migration_error
  (w : @world TParent action) (update : SyncUpdate) (o : string)
  (p : persisted) (t' : trace) (e : exn) :
  select config (store_state w) = Normal update ->
  owner update = Some o ->
  disk_get parseInt config o w = (w, Normal (Some p)) ->
  Number.strict_eq (stored_version p) (version config) = false ->
  migrate config (data p) (stored_version p) (calls w) = (t', Throw e) ->
  theHydrateEffect reducer parseInt config w
  = ({| storage := storage w; calls := t';
        dispatched := dispatched w; store_state := store_state w |}, Throw e).
Proof.
  intros Hselect Howner Hget Hversion Hmigrate.
  unfold theHydrateEffect, bindH, getState, liftC. rewrite Hselect, Howner, Hget.
  unfold ensureVersionRelevance. rewrite Hversion.
  unfold bindH, liftM. rewrite Hmigrate. reflexivity.
Qed.



(** X17. A record that has been migrated is not migrated again: what
    [ensureVersionRelevance] wrote back is read as a record of the
    configured version, and for it [migrate] is not called. This needs a
    serializer that reads back what it wrote and a [parseInt] that reads
    back the version's text. *)
Theorem migrated_record_is_current
  (w : @world TParent action) (o : string) (migrated : value) (serialized : string)
  (current : Z) :
  version config = Num current ->
  parseInt (Number.toString (Num current)) = Num current ->
  stringify (json config) migrated = Normal serialized ->
  parse (json config) serialized = Normal migrated ->
  is_nullish migrated = false ->
  let w' := fst (disk_set config o migrated w) in
  let p' := {| data := migrated; stored_version := Num current |} in
  disk_get parseInt config o w' = (w', Normal (Some p'))
  /\ ensureVersionRelevance config p' o w' = (w', Normal migrated).
Proof.
  intros Hversion HparseInt Hser Hparse Hnullish w' p'.
  destruct (disk_get_after_set parseInt config w o migrated serialized Hser)
    as [_ [_ Hget]].
  fold w' in Hget. rewrite Hparse, Hnullish, Hversion, HparseInt in Hget.
  split; [exact Hget|].
  unfold ensureVersionRelevance. subst p'. cbn [stored_version data].
  rewrite Hversion. cbn [Number.strict_eq]. rewrite Z.eqb_refl. reflexivity.
Qed.

End hydration_more.


Lemma hydrate_without_owner_or_record_witness :
  PersistenceEffects.theHydrateEffect (fun _ a => a) digits_parseInt test_config empty_world
  = (empty_world, Normal tt).
Proof.
  apply (hydrate_without_owner_or_record (fun _ a => a) digits_parseInt test_config
           empty_world static_update).
  - reflexivity.
  - right. exists "static". split; reflexivity.
Defined.

Lemma hydrate_propagates_migration_error_witness :
  PersistenceEffects.theHydrateEffect (fun _ a => a) digits_parseInt test_config
    (test_world "0|123")
  = ({| PersistenceEffects.storage := PersistenceEffects.storage (test_world "0|123");
        PersistenceEffects.calls := [];
        PersistenceEffects.dispatched := [];
        PersistenceEffects.store_state := VString "init" |},
     Throw (thrown_by (snd (migrate setupV1 (VNumber (Num 123)) (Num 0) [])))).
Proof.
  apply (hydrate_propagates_migration_error (fun _ a => a) digits_parseInt test_config
           (test_world "0|123") static_update "static"
           (record_of (VNumber (Num 123)) (Num 0)) []).
  - reflexivity.
  - reflexivity.
  - vm_compute. reflexivity.
  - reflexivity.
  - reflexivity.
Defined.


Lemma migrated_record_is_current_witness :
  let w' := fst (PersistenceEffects.disk_set counter_config "static" (VNumber (Num 6))
                   (test_world "1|5")) in
  PersistenceEffects.disk_get digits_parseInt counter_config "static" w'
  = (w', Normal (Some (record_of (VNumber (Num 6)) (Num 2))))
  /\ PersistenceEffects.ensureVersionRelevance counter_config
       (record_of (VNumber (Num 6)) (Num 2)) "static" w'
     = (w', Normal (VNumber (Num 6))).
Proof.
  apply (migrated_record_is_current digits_parseInt counter_config (test_world "1|5")
           "static" (VNumber (Num 6)) "6" 2); reflexivity.
Defined.


(** ** Purge *)

Section purge_facts.

Import PersistenceEffects.

Context {TParent action : Type}.
Variable config : @Config TParent action.








End purge_facts.

(** ** The update effect *)

Section update_facts.

Import PersistenceEffects.

Context {TParent action : Type}.
Variable parseInt : string -> number.
Variable config : @Config TParent action.
Variable compare : value -> value -> bool.

Lemma deref_createWeakRef (v : value) : deref false (createWeakRef v) = v.
Proof. unfold createWeakRef. destruct (_ && _); reflexivity. Qed.

Lemma isNew_again (collected : bool) (current : ref) (st : value) :
  ToBoolean st = true ->
  compare st st = true ->
  isNew compare false st (snd (isNew compare collected st current))
  = (false, snd (isNew compare collected st current)).
Proof.
  intros Htruthy Hsame. unfold isNew at 2 3.
  destruct (negb (ToBoolean (deref collected current))
            || negb (compare (deref collected current) st)) eqn:Hnew; cbn [snd].
  - unfold isNew. rewrite deref_createWeakRef, Htruthy, Hsame. reflexivity.
  - assert (Hderef : deref false current = deref collected current).
    { destruct current as [target|d]; [|reflexivity].
      destruct collected; [|reflexivity]. simpl in Hnew. discriminate. }
    unfold isNew. rewrite Hderef, Hnew. reflexivity.
Qed.

(** X20. A selected state that is absent or falsy (also [0], the empty
    string and [false]) removes the owner's record: reading it afterwards
    finds nothing. The detector keeps the state it last saw written. *)
Theorem update_clears_record_for_falsy_state
  (collected : bool) (current : ref) (w : @world TParent action)
  (update : SyncUpdate) (o : string) :
  select config (store_state w) = Normal update ->
  skipSync update = false ->
  owner update = Some o ->
  state update = None
  \/ (exists st, state update = Some st /\ ToBoolean st = false) ->
  let w' := fst (disk_clear config o w) in
  theUpdateEffect config compare collected current w = (current, (w', Normal tt))
  /\ storage w' = delete (getOwnedKey config o) (storage w)
  /\ disk_get parseInt config o w' = (w', Normal None).
Proof.
  intros Hselect Hskip Howner Hstate w'.
  assert (Hget : disk_get parseInt config o w' = (w', Normal None)).
  { subst w'. unfold disk_clear, removeItem. cbn [fst].
    unfold disk_get. cbn [storage]. rewrite lookup_delete_eq. reflexivity. }
  split; [|split; [reflexivity|exact Hget]].
  unfold theUpdateEffect. rewrite Hselect, Hskip, Howner. cbn [owner_text].
  destruct Hstate as [->|[st [-> Hfalsy]]]; [reflexivity|].
  rewrite Hfalsy. reflexivity.
Qed.

(** X21. The first update that finds a truthy state writes it: from the
    detector as created, the state is stored for the owner under the
    configured version, the detector holds it, and reading the record
    back gives what the serializer's [parse] makes of what was written. *)
Theorem update_first_write_is_read_back
  (collected : bool) (w : @world TParent action) (update : SyncUpdate)
  (o : string) (st : value) (serialized : string) :
  select config (store_state w) = Normal update ->
  skipSync update = false ->
  owner update = Some o ->
  state update = Some st ->
  ToBoolean st = true ->
  stringify (json config) st = Normal serialized ->
  let w' := fst (disk_set config o st w) in
  theUpdateEffect config compare collected initial_ref w
  = (createWeakRef st, (w', Normal tt))
  /\ storage w'
     = <[getOwnedKey config o :=
           Number.toString (version config) +:+ separator +:+ serialized]> (storage w)
  /\ disk_get parseInt config o w'
     = (w', match parse (json config) serialized with
            | Throw e => Throw e
            | Normal d =>
                if is_nullish d then Normal None
                else Normal (Some {| data := d;
                                     stored_version :=
                                       parseInt (Number.toString (version config)) |})
            end).
Proof.
  intros Hselect Hskip Howner Hstate Htruthy Hser w'.
  destruct (disk_get_after_set parseInt config w o st serialized Hser)
    as [Hset [Hstorage Hget]].
  fold w' in Hset, Hstorage, Hget.
  split; [|split; [exact Hstorage|exact Hget]].
  unfold theUpdateEffect. rewrite Hselect, Hskip, Howner, Hstate, Htruthy.
  cbn [owner_text negb]. unfold isNew, initial_ref.
  assert (Hinitial : deref collected (createWeakRef VUndefined) = VUndefined)
    by (destruct collected; reflexivity).
  rewrite Hinitial. cbn [ToBoolean negb orb]. rewrite Hset. reflexivity.
Qed.

(** X22. An update that follows another with the same selected state
    writes nothing, as long as [compare] finds the state equal to itself
    and the object held has not been reclaimed in between: the second run
    leaves the storage and the detector as the first left them. *)
Theorem update_twice_writes_once
  (collected : bool) (current : ref) (w : @world TParent action)
  (update : SyncUpdate) (o : string) (st : value) :
  select config (store_state w) = Normal update ->
  skipSync update = false ->
  owner update = Some o ->
  state update = Some st ->
  ToBoolean st = true ->
  compare st st = true ->
  let first := theUpdateEffect config compare collected current w in
  theUpdateEffect config compare false (fst first) (fst (snd first))
  = (fst first, (fst (snd first), Normal tt)).
Proof.
  intros Hselect Hskip Howner Hstate Htruthy Hsame first.
  assert (Hfirst : fst first = snd (isNew compare collected st current)
                   /\ store_state (fst (snd first)) = store_state w).
  { subst first. unfold theUpdateEffect.
    rewrite Hselect, Hskip, Howner, Hstate, Htruthy. cbn [owner_text negb].
    destruct (isNew compare collected st current) as [[|] current']; cbn [fst snd].
    - split; [reflexivity|]. unfold disk_set, bindH, liftC.
      destruct (stringify (json config) st); reflexivity.
    - split; reflexivity. }
  destruct Hfirst as [Hdetector Hstore].
  unfold theUpdateEffect at 1. rewrite Hstore, Hselect, Hskip, Howner, Hstate, Htruthy.
  cbn [owner_text negb]. rewrite Hdetector.
  rewrite (isNew_again collected current st Htruthy Hsame). reflexivity.
Qed.

(** X23. The detector is not told of a clear: once the selected state has
    been absent, so that the record was removed, selecting again the state
    that was written last writes nothing, and the record stays absent. *)
Theorem update_after_clear_is_not_written_again
  (collected : bool) (w : @world TParent action) (absent present : TParent)
  (o : string) (st : value) (cleared written : SyncUpdate) :
  select config absent = Normal cleared ->
  skipSync cleared = false -> owner cleared = Some o -> state cleared = None ->
  select config present = Normal written ->
  skipSync written = false -> owner written = Some o -> state written = Some st ->
  ToBoolean st = true ->
  compare st st = true ->
  let first :=
    theUpdateEffect config compare collected (createWeakRef st)
                    (with_store_state absent w) in
  let w1 := with_store_state present (fst (snd first)) in
  theUpdateEffect config compare false (fst first) w1
  = (createWeakRef st, (w1, Normal tt))
  /\ storage w1 !! getOwnedKey config o = None.
Proof.
  intros Hcleared Hskip1 Howner1 Hstate1 Hwritten Hskip2 Howner2 Hstate2 Htruthy Hsame
         first w1.
  assert (Hfirst : first = (createWeakRef st,
                            (fst (disk_clear config o (with_store_state absent w)),
                             Normal tt))).
  { subst first. unfold theUpdateEffect. cbn [with_store_state store_state].
    rewrite Hcleared, Hskip1, Howner1, Hstate1. reflexivity. }
  subst w1. rewrite Hfirst. cbn [fst snd]. split.
  - unfold theUpdateEffect. cbn [with_store_state store_state].
    rewrite Hwritten, Hskip2, Howner2, Hstate2, Htruthy. cbn [owner_text negb].
    unfold isNew. rewrite deref_createWeakRef, Htruthy, Hsame. reflexivity.
  - unfold disk_clear, removeItem. cbn [fst with_store_state storage].
    apply lookup_delete_eq.
Qed.

End update_facts.

Lemma update_clears_record_for_falsy_state_witness :
  let w := with_store_state (VNumber (Num 0)) (test_world "1|5") in
  let w' := fst (PersistenceEffects.disk_clear mirror_config "static" w) in
  PersistenceEffects.theUpdateEffect mirror_config same_value false
    (PersistenceEffects.createWeakRef (VNumber (Num 5))) w
  = (PersistenceEffects.createWeakRef (VNumber (Num 5)), (w', Normal tt))
  /\ PersistenceEffects.storage w'
     = delete (PersistenceEffects.getOwnedKey mirror_config "static")
              (PersistenceEffects.storage w)
  /\ PersistenceEffects.disk_get digits_parseInt mirror_config "static" w'
     = (w', Normal None).
Proof.
  apply (update_clears_record_for_falsy_state digits_parseInt mirror_config same_value
           false (PersistenceEffects.createWeakRef (VNumber (Num 5)))
           (with_store_state (VNumber (Num 0)) (test_world "1|5"))
           (mirror_update false (VNumber (Num 0))) "static").
  - reflexivity.
  - reflexivity.
  - reflexivity.
  - right. exists (VNumber (Num 0)). split; reflexivity.
Defined.

Lemma update_first_write_is_read_back_witness :
  let w := with_store_state (VNumber (Num 7)) empty_world in
  let w' := fst (PersistenceEffects.disk_set mirror_config "static" (VNumber (Num 7)) w) in
  PersistenceEffects.theUpdateEffect mirror_config same_value false
    PersistenceEffects.initial_ref w
  = (PersistenceEffects.createWeakRef (VNumber (Num 7)), (w', Normal tt))
  /\ PersistenceEffects.storage w'
     = <[PersistenceEffects.getOwnedKey mirror_config "static" :=
           Number.toString (PersistenceEffects.version mirror_config)
             +:+ PersistenceEffects.separator +:+ "7"]> (PersistenceEffects.storage w)
  /\ PersistenceEffects.disk_get digits_parseInt mirror_config "static" w'
     = (w', match PersistenceEffects.parse (PersistenceEffects.json mirror_config) "7" with
            | Throw e => Throw e
            | Normal d =>
                if PersistenceEffects.is_nullish d then Normal None
                else Normal (Some (record_of d
                                     (digits_parseInt
                                        (Number.toString
                                           (PersistenceEffects.version mirror_config)))))
            end).
Proof.
  apply (update_first_write_is_read_back digits_parseInt mirror_config same_value false
           (with_store_state (VNumber (Num 7)) empty_world)
           (mirror_update false (VNumber (Num 7))) "static" (VNumber (Num 7)) "7");
    reflexivity.
Defined.

Lemma update_twice_writes_once_witness :
  let first :=
    PersistenceEffects.theUpdateEffect mirror_config same_value false
      PersistenceEffects.initial_ref (with_store_state (VNumber (Num 7)) empty_world) in
  PersistenceEffects.theUpdateEffect mirror_config same_value false
    (fst first) (fst (snd first))
  = (fst first, (fst (snd first), Normal tt)).
Proof.
  apply (update_twice_writes_once mirror_config same_value false
           PersistenceEffects.initial_ref (with_store_state (VNumber (Num 7)) empty_world)
           (mirror_update false (VNumber (Num 7))) "static" (VNumber (Num 7)));
    reflexivity.
Defined.

Lemma update_after_clear_is_not_written_again_witness :
  let first :=
    PersistenceEffects.theUpdateEffect mirror_config same_value false
      (PersistenceEffects.createWeakRef (VNumber (Num 7)))
      (with_store_state VUndefined (test_world "1|7")) in
  let w1 := with_store_state (VNumber (Num 7)) (fst (snd first)) in
  PersistenceEffects.theUpdateEffect mirror_config same_value false (fst first) w1
  = (PersistenceEffects.createWeakRef (VNumber (Num 7)), (w1, Normal tt))
  /\ PersistenceEffects.storage w1
       !! PersistenceEffects.getOwnedKey mirror_config "static" = None.
Proof.
  apply (update_after_clear_is_not_written_again mirror_config same_value false
           (test_world "1|7") VUndefined (VNumber (Num 7)) "static" (VNumber (Num 7))
           (mirror_update false VUndefined) (mirror_update false (VNumber (Num 7))));
    reflexivity.
Defined.
